(** * CompanyExtractor (src/main.py): date normaliser, paragraph pipeline, CSV export

    A shallow embedding of the logic of [CompanyExtractor]:
    [_normalize_date], [process_text_direct] with [_save_companies_to_csv],
    and the tools [save_to_csv] and [extract_companies_from_paragraph].

    Conventions.
    - A Python [str] is a [list ascii]; a character is read as the code point
      of the same number (0..255), and the character classes of the [re]
      module and of [str.strip] are the Unicode ones restricted to that range.
    - A value produced by the JSON output parser is a [PyVal].
    - A Python call that can raise returns a [result]; [Raise e] is an
      exception of class [Exception] leaving the call.
    - The extraction chain and the file system are parameters: every
      behaviour of them is a value of [Service] or [FileSys]. *)

From Stdlib Require Import Ascii String List Arith ZArith Bool Lia PrimFloat.
Import ListNotations.

Local Open Scope list_scope.

(** ** Strings *)

Definition str := list ascii.

(** A string literal of the source. *)
Definition lit (s : string) : str := list_ascii_of_string s.

Definition code (c : ascii) : nat := nat_of_ascii c.

Definition in_range (lo hi : nat) (c : ascii) : bool :=
  (lo <=? code c) && (code c <=? hi).

(** [\d] of a [str] pattern. *)
Definition is_digit (c : ascii) : bool := in_range 48 57 c.

(** [str.isalpha] on the code points below 256. *)
Definition is_alpha (c : ascii) : bool :=
  in_range 65 90 c || in_range 97 122 c
  || (code c =? 170) || (code c =? 181) || (code c =? 186)
  || in_range 192 214 c || in_range 216 246 c || in_range 248 255 c.

(** The remaining [str.isalnum] code points below 256: the superscript
    digits and the vulgar fractions. *)
Definition is_other_numeric (c : ascii) : bool :=
  (code c =? 178) || (code c =? 179) || (code c =? 185) || in_range 188 190 c.

(** [\w]: alphanumeric or underscore. *)
Definition is_word (c : ascii) : bool :=
  is_alpha c || is_digit c || is_other_numeric c || (code c =? 95).

(** [str.isspace] on the code points below 256. *)
Definition is_space (c : ascii) : bool :=
  in_range 9 13 c || in_range 28 32 c || (code c =? 133) || (code c =? 160).

(** Lower-casing used by [re.IGNORECASE], on the code points below 256.
    Beyond them Python's [re] also takes U+0130 and U+0131 for [i], U+017F
    for [s] and U+212A for [k]; such characters are outside [str]. *)
Definition lower (c : ascii) : ascii :=
  if in_range 65 90 c || in_range 192 214 c || in_range 216 222 c
  then ascii_of_nat (code c + 32) else c.

Fixpoint lstrip (s : str) : str :=
  match s with
  | c :: t => if is_space c then lstrip t else s
  | [] => []
  end.

Definition rstrip (s : str) : str := rev (lstrip (rev s)).

(** [str.strip()] *)
Definition strip (s : str) : str := rstrip (lstrip s).

(** [str.zfill(width)]: zeros go after a leading sign. *)
Definition zfill (width : nat) (s : str) : str :=
  let pad := repeat "0"%char (width - length s) in
  match s with
  | c :: t => if Ascii.eqb c "+"%char || Ascii.eqb c "-"%char then c :: pad ++ t else pad ++ s
  | [] => pad
  end.

(** ** The filler-word substitution

    [re.sub(r'\b(in|on|during|established|founded|created)\b', '', s,
    flags=re.IGNORECASE)]. *)

Definition fillers : list str :=
  map lit ["in"; "on"; "during"; "established"; "founded"; "created"]%string.

Definition wordp (o : option ascii) : bool :=
  match o with Some c => is_word c | None => false end.

(** [\b] between the character before the position and the text from it. *)
Definition at_boundary (prev : option ascii) (s : str) : bool :=
  xorb (wordp prev) (wordp (hd_error s)).

(** A literal matched without regard to case: the character matched last
    and the text after the match. *)
Fixpoint lit_ci (w s : str) (prev : option ascii) : option (option ascii * str) :=
  match w with
  | [] => Some (prev, s)
  | a :: w' =>
      match s with
      | c :: t => if Ascii.eqb a (lower c) then lit_ci w' t (Some c) else None
      | [] => None
      end
  end.

(** The alternatives in order; one that matches but is not followed by a
    word boundary is given up for the next. *)
Fixpoint first_alt (ws : list str) (prev : option ascii) (s : str) : option nat :=
  match ws with
  | [] => None
  | w :: ws' =>
      match lit_ci w s prev with
      | Some (last, rest) =>
          if at_boundary last rest then Some (length w) else first_alt ws' prev s
      | None => first_alt ws' prev s
      end
  end.

(** The length of the match of the whole pattern at a position. *)
Definition match_filler (prev : option ascii) (s : str) : option nat :=
  if at_boundary prev s then first_alt fillers prev s else None.

(** The scan of [re.sub]: [skip] characters of a match are still to be
    dropped; otherwise a match is looked for here and, failing that, the
    character is copied. *)
Fixpoint sub_scan (prev : option ascii) (skip : nat) (s : str) : str :=
  match s with
  | [] => []
  | c :: t =>
      match skip with
      | S k => sub_scan (Some c) k t
      | O =>
          match match_filler prev s with
          | Some n => sub_scan (Some c) (pred n) t
          | None => c :: sub_scan (Some c) O t
          end
      end
  end.

Definition sub_fillers (s : str) : str := sub_scan None 0 s.

(** [clean_date] of the source. *)
Definition clean (date_str : str) : str := strip (sub_fillers date_str).

(** ** The date patterns

    Each pattern of the source is a sequence of capture groups [(\d{lo,hi})]
    and literal characters. *)

Inductive item : Type :=
| Grp (lo hi : nat)
| Lit (c : ascii).

Definition pattern := list item.

Definition item_eqb (a b : item) : bool :=
  match a, b with
  | Grp l h, Grp l' h' => (l =? l') && (h =? h')
  | Lit c, Lit c' => Ascii.eqb c c'
  | _, _ => false
  end.

(** [pattern.startswith(q)] *)
Fixpoint startswith (q p : pattern) : bool :=
  match q with
  | [] => true
  | a :: q' =>
      match p with
      | b :: p' => item_eqb a b && startswith q' p'
      | [] => false
      end
  end.

Definition p_iso : pattern := [Grp 4 4; Lit "-"%char; Grp 1 2; Lit "-"%char; Grp 1 2].
Definition p_us : pattern := [Grp 1 2; Lit "/"%char; Grp 1 2; Lit "/"%char; Grp 4 4].
Definition p_slash : pattern := [Grp 4 4; Lit "/"%char; Grp 1 2; Lit "/"%char; Grp 1 2].
Definition p_ym : pattern := [Grp 4 4; Lit "-"%char; Grp 1 2].
Definition p_y : pattern := [Grp 4 4].

Definition patterns : list pattern := [p_iso; p_us; p_slash; p_ym; p_y].

(** Exactly [k] digits at the head of the text. *)
Fixpoint digits_exact (k : nat) (s : str) : option (str * str) :=
  match k with
  | O => Some ([], s)
  | S k' =>
      match s with
      | c :: t =>
          if is_digit c
          then match digits_exact k' t with
               | Some (g, rest) => Some (c :: g, rest)
               | None => None
               end
          else None
      | [] => None
      end
  end.

Fixpoint first_some {A B : Type} (f : A -> option B) (l : list A) : option B :=
  match l with
  | [] => None
  | a :: l' => match f a with Some b => Some b | None => first_some f l' end
  end.

(** The repetition counts of a greedy [{lo,hi}], longest first:
    [lo + span], ..., [lo]. *)
Fixpoint counts_down (lo span : nat) : list nat :=
  match span with
  | O => [lo]
  | S k => (lo + span) :: counts_down lo k
  end.

Definition counts (lo hi : nat) : list nat :=
  if hi <? lo then [] else counts_down lo (hi - lo).

(** The backtracking match of a pattern at the head of the text: the
    captured groups. *)
Fixpoint match_here (p : pattern) (s : str) : option (list str) :=
  match p with
  | [] => Some []
  | Lit c :: p' =>
      match s with
      | c' :: t => if Ascii.eqb c c' then match_here p' t else None
      | [] => None
      end
  | Grp lo hi :: p' =>
      first_some
        (fun k =>
           match digits_exact k s with
           | Some (g, rest) =>
               match match_here p' rest with
               | Some gs => Some (g :: gs)
               | None => None
               end
           | None => None
           end)
        (counts lo hi)
  end.

(** [re.search(p, s).groups()]: the leftmost position where the pattern
    matches. *)
Fixpoint search (p : pattern) (s : str) : option (list str) :=
  match match_here p s with
  | Some gs => Some gs
  | None =>
      match s with
      | [] => None
      | _ :: t => search p t
      end
  end.

(** ** Values and exceptions *)

#[warnings="-register-all"]
Inductive PyVal : Type :=
| VNone
| VBool (b : bool)
| VInt (n : Z)
| VFloat (f : float)
| VStr (s : str)
| VList (l : list PyVal)
| VDict (kv : list (str * PyVal)).

Inductive exn : Type :=
| AttributeError (msg : str)
| TypeError (msg : str)
| OSError (msg : str)
| OtherError (msg : str).

(** [str(e)] *)
Definition exn_msg (e : exn) : str :=
  match e with
  | AttributeError m | TypeError m | OSError m | OtherError m => m
  end.

Inductive result (A : Type) : Type :=
| Ok (a : A)
| Raise (e : exn).

Arguments Ok {A} a.
Arguments Raise {A} e.

Definition bind {A B : Type} (m : result A) (k : A -> result B) : result B :=
  match m with
  | Ok a => k a
  | Raise e => Raise e
  end.

Notation "x <- m ;; k" := (bind m (fun x => k))
  (at level 61, m at next level, right associativity).

(** Truth value of a value ([not v] is its negation). *)
Definition truthy (v : PyVal) : bool :=
  match v with
  | VNone => false
  | VBool b => b
  | VInt n => negb (Z.eqb n 0)
  | VFloat f => negb (PrimFloat.eqb f 0%float)
  | VStr s => match s with [] => false | _ => true end
  | VList l => match l with [] => false | _ => true end
  | VDict kv => match kv with [] => false | _ => true end
  end.

(** ** [_normalize_date] *)

(** The body of the [for pattern in patterns] loop: [Some] is a [return]. *)
Fixpoint try_patterns (ps : list pattern) (clean_date : str) : option str :=
  match ps with
  | [] => None
  | p :: ps' =>
      match search p clean_date with
      | Some groups =>
          match groups with
          | [g1; g2; g3] =>
              if startswith p_us p
              then (* month, day, year *)
                Some (g3 ++ lit "-" ++ zfill 2 g1 ++ lit "-" ++ zfill 2 g2)
              else (* year, month, day *)
                Some (g1 ++ lit "-" ++ zfill 2 g2 ++ lit "-" ++ zfill 2 g3)
          | [year; month] => Some (year ++ lit "-" ++ zfill 2 month ++ lit "-01")
          | [year] => Some (year ++ lit "-01-01")
          | _ => try_patterns ps' clean_date
          end
      | None => try_patterns ps' clean_date
      end
  end.

Definition _normalize_date (date_str : PyVal) : result str :=
  if negb (truthy date_str) then Ok []
  else
    match date_str with
    | VStr s =>
        match try_patterns patterns (clean s) with
        | Some r => Ok r
        | None => Ok s
        end
    | _ => Raise (TypeError (lit "expected string or bytes-like object"))
    end.

(** [normalize] of the specification, on strings. *)
Definition normalize (s : str) : result str := _normalize_date (VStr s).

(** ** Records and the extraction result *)

(** The dataclass [CompanyInfo]; the annotations are not enforced, so a field
    holds whatever the constructor was given. *)
Record CompanyInfo : Type := mkCompanyInfo {
  company_name : PyVal;
  founding_date : str;
  founders : PyVal
}.

Fixpoint str_eqb (a b : str) : bool :=
  match a, b with
  | [], [] => true
  | x :: a', y :: b' => Ascii.eqb x y && str_eqb a' b'
  | _, _ => false
  end.

(** The items of a dict, in insertion order. *)
Fixpoint lookup (k : str) (kv : list (str * PyVal)) : option PyVal :=
  match kv with
  | [] => None
  | (k', v) :: kv' => if str_eqb k k' then Some v else lookup k kv'
  end.

(** [v.get(key, default)] *)
Definition get (v : PyVal) (key : str) (default : PyVal) : result PyVal :=
  match v with
  | VDict kv =>
      match lookup key kv with
      | Some x => Ok x
      | None => Ok default
      end
  | _ => Raise (AttributeError (lit "object has no attribute 'get'"))
  end.

(** [isinstance(v, dict) and key in v] *)
Definition dict_with (key : str) (v : PyVal) : option PyVal :=
  match v with
  | VDict kv => lookup key kv
  | _ => None
  end.

(** The elements a [for] loop or [str.join] draws from a value. *)
Definition iterate (v : PyVal) : result (list PyVal) :=
  match v with
  | VList l => Ok l
  | VStr s => Ok (map (fun c => VStr [c]) s)
  | VDict kv => Ok (map (fun p => VStr (fst p)) kv)
  | _ => Raise (TypeError (lit "object is not iterable"))
  end.

(** The [CompanyInfo(...)] call of [process_text_direct]; the arguments are
    evaluated in order. *)
Definition build_company (company_data : PyVal) : result CompanyInfo :=
  name <- get company_data (lit "company_name") (VStr []) ;;
  raw <- get company_data (lit "founding_date") (VStr []) ;;
  date <- _normalize_date raw ;;
  fs <- get company_data (lit "founders") (VList []) ;;
  Ok (mkCompanyInfo name date fs).

(** [for company_data in result["companies"]]: the records appended so far
    stay in the list when an element raises. *)
Fixpoint for_companies (items : list PyVal) (all_companies : list CompanyInfo)
  : list CompanyInfo * option exn :=
  match items with
  | [] => (all_companies, None)
  | company_data :: rest =>
      match build_company company_data with
      | Ok company => for_companies rest (all_companies ++ [company])
      | Raise e => (all_companies, Some e)
      end
  end.

(** What follows the [invoke] inside the [try]. *)
Definition handle_result (result : PyVal) (all_companies : list CompanyInfo)
  : list CompanyInfo * option exn :=
  match dict_with (lit "companies") result with
  | Some companies =>
      match iterate companies with
      | Ok items => for_companies items all_companies
      | Raise e => (all_companies, Some e)
      end
  | None => (all_companies, None)
  end.

(** ** The paragraph pipeline *)

(** [extraction_chain.invoke]: the outcome of the call number [k] on a
    paragraph. *)
Definition Service := nat -> str -> result PyVal.

Definition LF : ascii := "010"%char.

(** [text.split('\n\n')]; [cur] is the piece being read, reversed. *)
Fixpoint split_blank (cur : str) (text : str) : list str :=
  match text with
  | [] => [rev cur]
  | c :: t =>
      match t with
      | c' :: t' =>
          if Ascii.eqb c LF && Ascii.eqb c' LF
          then rev cur :: split_blank [] t'
          else split_blank (c :: cur) t
      | [] => [rev (c :: cur)]
      end
  end.

(** [[p.strip() for p in text.split('\n\n') if p.strip()]] *)
Definition paragraphs (text : str) : list str :=
  map strip (filter (fun p => match strip p with [] => false | _ => true end)
                    (split_blank [] text)).

Record State : Type := mkState {
  all_companies : list CompanyInfo;
  stdout : list str
}.

Definition error_line (e : exn) : str :=
  lit "Error processing paragraph: " ++ exn_msg e.

(** One iteration of [for paragraph in paragraphs]: the [try] block and its
    [except Exception] handler. *)
Definition paragraph_step (svc : Service) (k : nat) (paragraph : str) (st : State)
  : State :=
  let '(all, raised) :=
    match svc k paragraph with
    | Ok result => handle_result result (all_companies st)
    | Raise e => (all_companies st, Some e)
    end in
  match raised with
  | Some e => mkState all (stdout st ++ [error_line e])
  | None => mkState all (stdout st)
  end.

Fixpoint for_paragraphs (svc : Service) (k : nat) (ps : list str) (st : State)
  : State :=
  match ps with
  | [] => st
  | paragraph :: ps' => for_paragraphs svc (S k) ps' (paragraph_step svc k paragraph st)
  end.

(** ** The CSV export *)

(** The file system as the export sees it: whether opening the destination
    for writing, the write number [i] (the header is number 0) and the
    closing of the file fail. *)
Record FileSys : Type := mkFileSys {
  fs_open : str -> option exn;
  fs_write : str -> nat -> option exn;
  fs_close : str -> option exn
}.

(** What [csv.DictWriter] is handed: the header, or the three fields of a
    row. Quoting is the writer's. *)
Inductive Line : Type :=
| Header (fieldnames : list str)
| Row (name date : PyVal) (founders_str : str).

Definition fieldnames : list str :=
  map lit ["company_name"; "founding_date"; "founders"]%string.

Definition default_filename : str := lit "company_info.csv".

Fixpoint intercalate (sep : str) (parts : list str) : str :=
  match parts with
  | [] => []
  | [x] => x
  | x :: rest => x ++ sep ++ intercalate sep rest
  end.

Fixpoint all_str (items : list PyVal) : result (list str) :=
  match items with
  | [] => Ok []
  | VStr s :: rest => ss <- all_str rest ;; Ok (s :: ss)
  | _ :: _ => Raise (TypeError (lit "sequence item: expected str instance"))
  end.

(** [sep.join(v)] *)
Definition join (sep : str) (v : PyVal) : result str :=
  items <- iterate v ;;
  parts <- all_str items ;;
  Ok (intercalate sep parts).

(** A loop that builds a row from each element and writes it; [written]
    is what has reached the file. *)
Fixpoint write_rows {A : Type} (mk : A -> result Line) (fs : FileSys)
  (filename : str) (i : nat) (xs : list A) (written : list Line)
  : list Line * result unit :=
  match xs with
  | [] => (written, Ok tt)
  | x :: xs' =>
      match mk x with
      | Raise e => (written, Raise e)
      | Ok ln =>
          match fs_write fs filename i with
          | Some e => (written, Raise e)
          | None => write_rows mk fs filename (S i) xs' (written ++ [ln])
          end
      end
  end.

(** [with open(filename, 'w', ...) as csvfile:] around [writeheader] and the
    loop; the file is closed on every way out. *)
Definition with_csv {A : Type} (mk : A -> result Line) (fs : FileSys)
  (filename : str) (xs : list A) : list Line * result unit :=
  match fs_open fs filename with
  | Some e => ([], Raise e)
  | None =>
      let '(written, r) :=
        match fs_write fs filename 0 with
        | Some e => ([], Raise e)
        | None => write_rows mk fs filename 1 xs [Header fieldnames]
        end in
      match fs_close fs filename with
      | Some e => (written, Raise e)
      | None => (written, r)
      end
  end.

Definition info_row (company : CompanyInfo) : result Line :=
  founders_str <- join (lit ", ") (founders company) ;;
  Ok (Row (company_name company) (VStr (founding_date company)) founders_str).

(** [_save_companies_to_csv]: no handler, an exception leaves the method. *)
Definition _save_companies_to_csv (fs : FileSys) (companies : list CompanyInfo)
  (filename : str) : list Line * result unit :=
  with_csv info_row fs filename companies.

Definition dict_row (company : PyVal) : result Line :=
  fs <- get company (lit "founders") (VList []) ;;
  founders_str <- join (lit ", ") fs ;;
  name <- get company (lit "company_name") (VStr []) ;;
  date <- get company (lit "founding_date") (VStr []) ;;
  Ok (Row name date founders_str).

Definition digit_char (d : nat) : ascii := ascii_of_nat (48 + d).

Fixpoint dec_fuel (fuel n : nat) : str :=
  match fuel with
  | O => []
  | S fuel' =>
      if n <? 10 then [digit_char n]
      else dec_fuel fuel' (n / 10) ++ [digit_char (n mod 10)]
  end.

(** [str(n)] of a natural number: its decimal digits, unpadded. *)
Definition dec (n : nat) : str := dec_fuel (S n) n.

(** The body of [save_to_csv] (the [@tool] wrapper is not modelled): all of
    it is inside [try], and the handler returns the message. *)
Definition save_to_csv (fs : FileSys) (companies_data : list PyVal)
  (filename : str) : list Line * result str :=
  let '(written, r) := with_csv dict_row fs filename companies_data in
  match r with
  | Ok _ =>
      (written,
       Ok (lit "Successfully saved " ++ dec (length companies_data)
           ++ lit " companies to " ++ filename))
  | Raise e => (written, Ok (lit "Error saving to CSV: " ++ exn_msg e))
  end.

(** [process_text_direct] *)
Definition run_state (svc : Service) (text : str) : State :=
  for_paragraphs svc 0 (paragraphs text) (mkState [] []).

Definition process_text_direct (svc : Service) (fs : FileSys) (text : str)
  : result (list CompanyInfo) :=
  let st := run_state svc text in
  _ <- snd (_save_companies_to_csv fs (all_companies st) default_filename) ;;
  Ok (all_companies st).

(** ** The extraction tool *)

(** [needle] at the head of the text. *)
Fixpoint is_prefix (needle s : str) : bool :=
  match needle with
  | [] => true
  | a :: needle' =>
      match s with
      | c :: t => Ascii.eqb a c && is_prefix needle' t
      | [] => false
      end
  end.

(** [needle in s] on strings. *)
Fixpoint contains (needle s : str) : bool :=
  match s with
  | [] => is_prefix needle []
  | _ :: t => is_prefix needle s || contains needle t
  end.

(** [key in v] for a string [key]: a key of a dict, a substring of a string,
    an element of a list. *)
Definition has_member (key : str) (v : PyVal) : result bool :=
  match v with
  | VDict kv => Ok (match lookup key kv with Some _ => true | None => false end)
  | VStr s => Ok (contains key s)
  | VList l =>
      Ok (existsb (fun x => match x with VStr s => str_eqb key s | _ => false end) l)
  | _ => Raise (TypeError (lit "argument is not iterable"))
  end.

(** [v[key]] for a string [key]. *)
Definition getitem (v : PyVal) (key : str) : result PyVal :=
  match v with
  | VDict kv =>
      match lookup key kv with
      | Some x => Ok x
      | None => Raise (OtherError (lit "'" ++ key ++ lit "'"))
      end
  | VStr _ | VList _ => Raise (TypeError (lit "indices must be integers"))
  | _ => Raise (TypeError (lit "object is not subscriptable"))
  end.

(** The items of a dict after [d[key] = x]: the value is replaced in place,
    a new key goes last. *)
Fixpoint update (key : str) (x : PyVal) (kv : list (str * PyVal))
  : list (str * PyVal) :=
  match kv with
  | [] => [(key, x)]
  | (k, v) :: kv' =>
      if str_eqb key k then (k, x) :: kv' else (k, v) :: update key x kv'
  end.

(** [v[key] = x] for a string [key]. *)
Definition setitem (v : PyVal) (key : str) (x : PyVal) : result PyVal :=
  match v with
  | VDict kv => Ok (VDict (update key x kv))
  | _ => Raise (TypeError (lit "object does not support item assignment"))
  end.

(** The body of [for company in result["companies"]] of the tool; the
    element after the assignment. *)
Definition normalize_company (company : PyVal) : result PyVal :=
  has <- has_member (lit "founding_date") company ;;
  if has
  then
    raw <- getitem company (lit "founding_date") ;;
    date <- _normalize_date raw ;;
    setitem company (lit "founding_date") (VStr date)
  else Ok company.

Fixpoint normalize_all (items : list PyVal) : result (list PyVal) :=
  match items with
  | [] => Ok []
  | company :: rest =>
      company' <- normalize_company company ;;
      rest' <- normalize_all rest ;;
      Ok (company' :: rest')
  end.

(** The [if isinstance(result, dict) and "companies" in result] block of the
    tool. Only the elements of a list are objects of the result; those drawn
    from a string or from the keys of a dict are strings, which the loop
    leaves alone or raises on. *)
Definition normalize_dates (answer : PyVal) : result PyVal :=
  match answer with
  | VDict kv =>
      match lookup (lit "companies") kv with
      | Some companies =>
          items <- iterate companies ;;
          items' <- normalize_all items ;;
          match companies with
          | VList _ => Ok (VDict (update (lit "companies") (VList items') kv))
          | _ => Ok answer
          end
      | None => Ok answer
      end
  | _ => Ok answer
  end.

Definition empty_result : PyVal := VDict [(lit "companies", VList [])].

(** The body of [extract_companies_from_paragraph] (the [@tool] wrapper is
    not modelled): what it returns and what it prints. *)
Definition extract_companies_from_paragraph (svc : Service) (k : nat)
  (paragraph : str) : PyVal * list str :=
  match (answer <- svc k paragraph ;; normalize_dates answer) with
  | Ok answer => (answer, [])
  | Raise e => (empty_result, [lit "Error extracting from paragraph: " ++ exn_msg e])
  end.

(** ** Notions of the specification *)

Definition all_digits (g : str) : bool := forallb is_digit g.

(** A year as the patterns capture it: four digits. *)
Definition is_year (g : str) : Prop := length g = 4 /\ all_digits g = true.

(** [f"{n:02d}"] *)
Definition fmt02 (n : nat) : str :=
  if n <? 10 then "0"%char :: dec n else dec n.

(** A full match of [\d{4}-\d{2}-\d{2}]. *)
Definition canonical (r : str) : bool :=
  match r with
  | [y1; y2; y3; y4; h1; m1; m2; h2; d1; d2] =>
      forallb is_digit [y1; y2; y3; y4; m1; m2; d1; d2]
      && Ascii.eqb h1 "-"%char && Ascii.eqb h2 "-"%char
  | _ => false
  end.

(** No pattern of the list matches anywhere in the text. *)
Definition no_match (s : str) : Prop :=
  forall p, In p patterns -> search p s = None.

Definition some_match (s : str) : Prop :=
  exists p, In p patterns /\ search p s <> None.

(** What the result of one successful call contributes when looked at on
    its own. *)
Definition records_of (result : PyVal) : list CompanyInfo :=
  fst (handle_result result []).

(** The results of the calls that returned, in paragraph order. *)
Fixpoint returned (svc : Service) (k : nat) (ps : list str) : list PyVal :=
  match ps with
  | [] => []
  | p :: ps' =>
      match svc k p with
      | Ok result => result :: returned svc (S k) ps'
      | Raise _ => returned svc (S k) ps'
      end
  end.

(** The errors caught by the handler, in paragraph order: those of the
    calls that raised and those raised while a result was being read. *)
Fixpoint caught (svc : Service) (k : nat) (ps : list str) : list exn :=
  match ps with
  | [] => []
  | p :: ps' =>
      match svc k p with
      | Ok result =>
          match snd (handle_result result []) with
          | Some e => e :: caught svc (S k) ps'
          | None => caught svc (S k) ps'
          end
      | Raise e => e :: caught svc (S k) ps'
      end
  end.

Definition is_dict (v : PyVal) : bool :=
  match v with VDict _ => true | _ => false end.

Definition is_list (v : PyVal) : bool :=
  match v with VList _ => true | _ => false end.

(** The validator as section 4.2 of the specification words it: an element
    that is not a mapping is passed over, and a [founders] value that is not
    a sequence becomes the empty sequence. *)
Definition spec_record (company_data : PyVal) : result CompanyInfo :=
  name <- get company_data (lit "company_name") (VStr []) ;;
  raw <- get company_data (lit "founding_date") (VStr []) ;;
  date <- _normalize_date raw ;;
  fs <- get company_data (lit "founders") (VList []) ;;
  Ok (mkCompanyInfo name date (if is_list fs then fs else VList [])).

Fixpoint spec_validate (items : list PyVal) : list CompanyInfo :=
  match items with
  | [] => []
  | x :: rest =>
      if is_dict x
      then match spec_record x with
           | Ok c => c :: spec_validate rest
           | Raise _ => spec_validate rest
           end
      else spec_validate rest
  end.

(** The value of a key of a dict, or the default. *)
Definition field_or (kv : list (str * PyVal)) (key : str) (default : PyVal) : PyVal :=
  match lookup key kv with
  | Some x => x
  | None => default
  end.

(** Each element builds the record next to it. *)
Definition built (items : list PyVal) (recs : list CompanyInfo) : Prop :=
  Forall2 (fun x c => build_company x = Ok c) items recs.

(** ** Sample values *)

Definition acme_dict : PyVal :=
  VDict [(lit "company_name", VStr (lit "Acme Corp"));
         (lit "founding_date", VStr (lit "founded in 1999"));
         (lit "founders", VList [VStr (lit "Jane Doe")])].

Definition acme_result : PyVal := VDict [(lit "companies", VList [acme_dict])].

Definition acme_record : CompanyInfo :=
  mkCompanyInfo (VStr (lit "Acme Corp")) (lit "1999-01-01")
                (VList [VStr (lit "Jane Doe")]).

(** An entry whose [founders] is a string, not a list. *)
Definition loose_dict : PyVal :=
  VDict [(lit "company_name", VStr (lit "Acme Corp"));
         (lit "founding_date", VStr (lit "founded in 1999"));
         (lit "founders", VStr (lit "Jane Doe"))].

(** A result whose first element is a number. *)
Definition mixed_result : PyVal :=
  VDict [(lit "companies", VList [VInt 5; acme_dict])].

Definition no_get : exn := AttributeError (lit "object has no attribute 'get'").

(** An entry whose [founders] is a number. *)
Definition numbered_result : PyVal :=
  VDict [(lit "companies",
          VList [VDict [(lit "company_name", VStr (lit "Acme Corp"));
                        (lit "founders", VInt 5)]])].

Definition svc_numbered : Service := fun _ _ => Ok numbered_result.

Definition svc_acme : Service := fun _ _ => Ok acme_result.

(** The first call times out, the later ones answer. *)
Definition svc_first_fails : Service :=
  fun k _ =>
    match k with
    | O => Raise (OtherError (lit "Request timed out."))
    | S _ => Ok acme_result
    end.

(** The first call times out, the later ones answer with founders that are
    a number. *)
Definition svc_fails_then_numbered : Service :=
  fun k _ =>
    match k with
    | O => Raise (OtherError (lit "Request timed out."))
    | S _ => Ok numbered_result
    end.

Definition fs_ok : FileSys :=
  mkFileSys (fun _ => None) (fun _ _ => None) (fun _ => None).

Definition permission_denied : exn := OSError (lit "[Errno 13] Permission denied").

(** No file can be opened for writing. *)
Definition fs_denied : FileSys :=
  mkFileSys (fun _ => Some permission_denied) (fun _ _ => None) (fun _ => None).

Definition acme_text : str := lit "Acme Corp was founded in 1999 by Jane Doe.".

Definition two_paragraphs : str :=
  lit "First paragraph." ++ [LF; LF] ++ lit "Acme Corp was founded in 1999.".

(** ** Notions used in the proofs *)

(** The characters of a numeric date: digits, dash, slash. *)
Definition plain (c : ascii) : bool :=
  is_digit c || Ascii.eqb c "-"%char || Ascii.eqb c "/"%char.

(** The text does not go on with a digit. *)
Definition stops (rest : str) : Prop :=
  match rest with
  | c :: _ => is_digit c = false
  | [] => True
  end.

(** The captured groups have the sizes the pattern asks for. *)
Fixpoint shape (p : pattern) (gs : list str) : Prop :=
  match p with
  | [] => gs = []
  | Lit _ :: p' => shape p' gs
  | Grp lo hi :: p' =>
      match gs with
      | g :: gs' => (lo <= length g <= hi /\ all_digits g = true) /\ shape p' gs'
      | [] => False
      end
  end.

(** Occurrences of a character in a text, and of a literal in a pattern. *)
Definition occ (c : ascii) (s : str) : nat := length (filter (Ascii.eqb c) s).

Fixpoint lit_occ (c : ascii) (p : pattern) : nat :=
  match p with
  | [] => 0
  | Lit c' :: p' => (if Ascii.eqb c c' then 1 else 0) + lit_occ c p'
  | Grp _ _ :: p' => lit_occ c p'
  end.

(** A month or a day as the patterns capture it: one or two digits. *)
Definition is_md (g : str) : Prop := 1 <= length g <= 2 /\ all_digits g = true.

Definition dec_ok (n : nat) : bool :=
  (1 <=? length (dec n)) && (length (dec n) <=? 2) && all_digits (dec n)
  && str_eqb (zfill 2 (dec n)) (fmt02 n).

(** The digits of a text, in order. *)
Definition digits_of (s : str) : str := filter is_digit s.

(** No file operation on the destination fails. *)
Definition no_fault (fs : FileSys) (filename : str) : Prop :=
  fs_open fs filename = None
  /\ (forall i, fs_write fs filename i = None)
  /\ fs_close fs filename = None.

(** Somewhere in the text the character [c] is followed by [n] digits. *)
Fixpoint has_run (c : ascii) (n : nat) (s : str) : bool :=
  match s with
  | [] => false
  | x :: t =>
      (Ascii.eqb c x && match digits_exact n t with Some _ => true | None => false end)
      || has_run c n t
  end.

(** [rstrip] by recursion from the left. *)
Fixpoint rstrip_rec (s : str) : str :=
  match s with
  | [] => []
  | c :: t =>
      match rstrip_rec t with
      | [] => if is_space c then [] else [c]
      | r => c :: r
      end
  end.

(** Two line feeds in a row. *)
Fixpoint has_blank (s : str) : bool :=
  match s with
  | c :: t =>
      match t with
      | c' :: _ => (Ascii.eqb c LF && Ascii.eqb c' LF) || has_blank t
      | [] => false
      end
  | [] => false
  end.

(** Words that are not empty and hold no digit. *)
Definition letters_only (ws : list str) : bool :=
  forallb (fun w => negb (length w =? 0)
                    && forallb (fun a => negb (is_digit a)) w) ws.

(** Each element builds the line next to it. *)
Definition rows_of {A : Type} (mk : A -> result Line) (xs : list A)
  (rows : list Line) : Prop :=
  Forall2 (fun x ln => mk x = Ok ln) xs rows.

(** * Properties *)

Example normalize_founded_in_1999 :
  normalize (lit "founded in 1999") = Ok (lit "1999-01-01").
Proof. reflexivity. Qed.

Example normalize_on_date :
  normalize (lit "On 5/8/1886") = Ok (lit "1886-05-08").
Proof. reflexivity. Qed.

Example normalize_inside_word :
  normalize (lit "Indiana 12345-1-2") = Ok (lit "2345-01-02").
Proof. reflexivity. Qed.

(** ** Characters *)

Ltac by_cases c :=
  let H := fresh "H" in
  destruct c as [[] [] [] [] [] [] [] []];
  intro H; vm_compute in H; try discriminate H.

Lemma plain_not_space (c : ascii) : plain c = true -> is_space c = false.
Proof. by_cases c; reflexivity. Qed.

Lemma digit_not_sign (c : ascii) :
  is_digit c = true ->
  (Ascii.eqb c "+"%char || Ascii.eqb c "-"%char) = false.
Proof. by_cases c; reflexivity. Qed.

Lemma digit_not_dash (c : ascii) : is_digit c = true -> Ascii.eqb "-"%char c = false.
Proof. by_cases c; reflexivity. Qed.

Lemma digit_not_slash (c : ascii) : is_digit c = true -> Ascii.eqb "/"%char c = false.
Proof. by_cases c; reflexivity. Qed.

Lemma plain_no_filler (c : ascii) (t : str) (prev : option ascii) :
  plain c = true -> match_filler prev (c :: t) = None.
Proof.
  by_cases c; unfold match_filler;
    destruct (at_boundary prev _); reflexivity.
Qed.

Lemma digit_plain (c : ascii) : is_digit c = true -> plain c = true.
Proof. unfold plain. intros ->. reflexivity. Qed.

Lemma all_digits_plain (g : str) : all_digits g = true -> forallb plain g = true.
Proof.
  unfold all_digits. induction g as [|c g IH]; simpl; [reflexivity|].
  intros H. apply andb_prop in H as [Hc Hg].
  rewrite (digit_plain _ Hc), (IH Hg). reflexivity.
Qed.

(** ** Cleaning a numeric date changes nothing *)

Lemma sub_scan_plain (s : str) (prev : option ascii) :
  forallb plain s = true -> sub_scan prev 0 s = s.
Proof.
  revert prev. induction s as [|c t IH]; intros prev H; [reflexivity|].
  simpl in H. apply andb_prop in H as [Hc Ht].
  cbn [sub_scan]. rewrite (plain_no_filler c t prev Hc).
  rewrite (IH (Some c) Ht). reflexivity.
Qed.

Lemma lstrip_plain (s : str) : forallb plain s = true -> lstrip s = s.
Proof.
  destruct s as [|c t]; [reflexivity|]. simpl. intros H.
  apply andb_prop in H as [Hc _]. rewrite (plain_not_space _ Hc). reflexivity.
Qed.

Lemma forallb_rev (A : Type) (f : A -> bool) (l : list A) :
  forallb f l = true -> forallb f (rev l) = true.
Proof.
  intros H. apply forallb_forall. intros x Hx.
  apply in_rev in Hx. revert x Hx. apply forallb_forall. exact H.
Qed.

Lemma clean_plain (s : str) : forallb plain s = true -> clean s = s.
Proof.
  intros H. unfold clean, sub_fillers, strip, rstrip.
  rewrite (sub_scan_plain s None H), (lstrip_plain _ H).
  rewrite (lstrip_plain _ (forallb_rev _ _ _ H)). apply rev_involutive.
Qed.

(** ** The matcher *)

Lemma digits_exact_sound (k : nat) :
  forall s g rest,
    digits_exact k s = Some (g, rest) ->
    s = g ++ rest /\ length g = k /\ all_digits g = true.
Proof.
  induction k as [|k IH]; intros s g rest H; simpl in H.
  - inversion H; subst. repeat split.
  - destruct s as [|c t]; [discriminate|].
    destruct (is_digit c) eqn:Hc; [|discriminate].
    destruct (digits_exact k t) as [[g' rest']|] eqn:E; [|discriminate].
    inversion H; subst. destruct (IH _ _ _ E) as (-> & <- & Hg).
    repeat split. simpl. rewrite Hc. exact Hg.
Qed.

Lemma digits_exact_app (g rest : str) :
  all_digits g = true -> digits_exact (length g) (g ++ rest) = Some (g, rest).
Proof.
  induction g as [|c g IH]; simpl; intros H; [reflexivity|].
  apply andb_prop in H as [Hc Hg]. rewrite Hc, (IH Hg). reflexivity.
Qed.

Lemma digits_exact_long (g rest : str) :
  all_digits g = true -> stops rest ->
  forall k, length g < k -> digits_exact k (g ++ rest) = None.
Proof.
  intros Hg Hrest. induction g as [|c g IH]; intros k Hk.
  - destruct k as [|k]; [inversion Hk|]. simpl.
    destruct rest as [|c t]; [reflexivity|]. simpl in Hrest.
    rewrite Hrest. reflexivity.
  - simpl in Hg. apply andb_prop in Hg as [Hc Hg].
    destruct k as [|k]; [inversion Hk|]. simpl. rewrite Hc.
    rewrite (IH Hg k); [reflexivity|]. simpl in Hk. lia.
Qed.

Lemma first_some_counts_down {B : Type} (f : nat -> option B) (n : nat) (b : B) (lo : nat) :
  f n = Some b ->
  (forall k, n < k -> f k = None) ->
  forall span, lo <= n <= lo + span ->
    first_some f (counts_down lo span) = Some b.
Proof.
  intros Hn Habove. induction span as [|span IH]; intros Hr; simpl.
  - replace lo with n by lia. rewrite Hn. reflexivity.
  - destruct (Nat.eq_dec n (lo + S span)) as [<-|Hne].
    + rewrite Hn. reflexivity.
    + rewrite Habove by lia. apply IH. lia.
Qed.

Lemma first_some_in {A B : Type} (f : A -> option B) (l : list A) (b : B) :
  first_some f l = Some b -> exists a, In a l /\ f a = Some b.
Proof.
  induction l as [|a l IH]; simpl; [discriminate|].
  destruct (f a) as [b'|] eqn:E.
  - intros H. inversion H; subst. exists a. split; [left; reflexivity | exact E].
  - intros H. destruct (IH H) as (x & Hx & Hfx). exists x. split; [right|]; assumption.
Qed.

Lemma counts_down_bounds (lo span k : nat) :
  In k (counts_down lo span) -> lo <= k <= lo + span.
Proof.
  induction span as [|span IH]; simpl.
  - intros [<-|[]]. lia.
  - intros [<-|H]; [lia|]. specialize (IH H). lia.
Qed.

Lemma counts_bounds (lo hi k : nat) : In k (counts lo hi) -> lo <= k <= hi.
Proof.
  unfold counts. destruct (hi <? lo) eqn:E; [intros []|].
  apply Nat.ltb_ge in E. intros H. apply counts_down_bounds in H. lia.
Qed.

(** A group takes the whole run of digits in front of it when the rest of
    the pattern matches behind the run. *)
Lemma match_here_grp (lo hi : nat) (p : pattern) (g rest : str) (gs : list str) :
  all_digits g = true -> lo <= length g <= hi -> stops rest ->
  match_here p rest = Some gs ->
  match_here (Grp lo hi :: p) (g ++ rest) = Some (g :: gs).
Proof.
  intros Hg Hlen Hrest Hp. cbn [match_here]. unfold counts.
  replace (hi <? lo) with false by (symmetry; apply Nat.ltb_ge; lia).
  apply first_some_counts_down with (n := length g).
  - rewrite (digits_exact_app g rest Hg), Hp. reflexivity.
  - intros k Hk. rewrite (digits_exact_long g rest Hg Hrest k Hk). reflexivity.
  - lia.
Qed.

Lemma match_here_lit (c : ascii) (p : pattern) (t : str) :
  match_here (Lit c :: p) (c :: t) = match_here p t.
Proof. cbn [match_here]. rewrite Ascii.eqb_refl. reflexivity. Qed.

Lemma search_here (p : pattern) (s : str) (gs : list str) :
  match_here p s = Some gs -> search p s = Some gs.
Proof. intros H. destruct s; simpl; rewrite H; reflexivity. Qed.

Lemma match_here_shape (p : pattern) :
  forall s gs, match_here p s = Some gs -> shape p gs.
Proof.
  induction p as [|[lo hi|c] p IH]; intros s gs H; cbn [match_here] in H.
  - inversion H. reflexivity.
  - apply first_some_in in H as (k & Hk & H).
    destruct (digits_exact k s) as [[g rest]|] eqn:E; [|discriminate].
    destruct (match_here p rest) as [gs'|] eqn:E'; [|discriminate].
    inversion H; subst. apply counts_bounds in Hk.
    destruct (digits_exact_sound _ _ _ _ E) as (_ & Hlen & Hg).
    simpl. repeat split; try lia; [exact Hg | exact (IH _ _ E')].
  - destruct s as [|c' t]; [discriminate|].
    destruct (Ascii.eqb c c'); [|discriminate]. simpl. exact (IH _ _ H).
Qed.

Lemma search_shape (p : pattern) (s : str) (gs : list str) :
  search p s = Some gs -> shape p gs.
Proof.
  induction s as [|c t IH]; simpl; destruct (match_here p _) eqn:E; intros H;
    try discriminate; try (inversion H; subst; exact (match_here_shape _ _ _ E)).
  exact (IH H).
Qed.

Lemma occ_app (c : ascii) (s t : str) : occ c (s ++ t) = occ c s + occ c t.
Proof. unfold occ. rewrite filter_app, length_app. reflexivity. Qed.

Lemma match_here_occ (c : ascii) (p : pattern) :
  forall s gs, match_here p s = Some gs -> lit_occ c p <= occ c s.
Proof.
  induction p as [|[lo hi|c'] p IH]; intros s gs H; cbn [match_here] in H; simpl.
  - lia.
  - apply first_some_in in H as (k & _ & H).
    destruct (digits_exact k s) as [[g rest]|] eqn:E; [|discriminate].
    destruct (match_here p rest) as [gs'|] eqn:E'; [|discriminate].
    destruct (digits_exact_sound _ _ _ _ E) as (-> & _ & _).
    rewrite occ_app. specialize (IH _ _ E'). lia.
  - destruct s as [|c'' t]; [discriminate|].
    destruct (Ascii.eqb c' c'') eqn:E; [|discriminate].
    apply Ascii.eqb_eq in E. subst c''. specialize (IH _ _ H).
    unfold occ in *. simpl. destruct (Ascii.eqb c c'); simpl; lia.
Qed.

Lemma search_occ (c : ascii) (p : pattern) (s : str) (gs : list str) :
  search p s = Some gs -> lit_occ c p <= occ c s.
Proof.
  induction s as [|c' t IH]; simpl; destruct (match_here p _) eqn:E; intros H;
    try discriminate; try (apply match_here_occ with (c := c) in E; exact E).
  specialize (IH H). unfold occ in *. simpl. destruct (Ascii.eqb c c'); simpl; lia.
Qed.

(** A pattern asking for more occurrences of a literal than the text has
    matches nowhere. *)
Lemma search_none_occ (c : ascii) (p : pattern) (s : str) :
  occ c s < lit_occ c p -> search p s = None.
Proof.
  intros H. destruct (search p s) as [gs|] eqn:E; [|reflexivity].
  apply search_occ with (c := c) in E. lia.
Qed.

Lemma occ_digits (c : ascii) (g : str) :
  is_digit c = false -> all_digits g = true -> occ c g = 0.
Proof.
  intros Hc. unfold occ. induction g as [|d g IH]; simpl; [reflexivity|].
  intros H. apply andb_prop in H as [Hd Hg].
  destruct (Ascii.eqb c d) eqn:E; [|exact (IH Hg)].
  apply Ascii.eqb_eq in E. subst d. congruence.
Qed.

(** ** The normaliser on numeric dates *)

Lemma normalize_nonempty (s : str) :
  s <> [] ->
  normalize s =
  Ok (match try_patterns patterns (clean s) with Some r => r | None => s end).
Proof.
  intros Hs. unfold normalize, _normalize_date.
  destruct s as [|c t]; [contradiction|]. simpl negb. cbv iota.
  destruct (try_patterns patterns _); reflexivity.
Qed.

Lemma try_iso (s y m d : str) :
  search p_iso s = Some [y; m; d] ->
  try_patterns patterns s
  = Some (y ++ lit "-" ++ zfill 2 m ++ lit "-" ++ zfill 2 d).
Proof. intros H. unfold patterns. cbn [try_patterns]. rewrite H. reflexivity. Qed.

Lemma try_us (s m d y : str) :
  search p_iso s = None ->
  search p_us s = Some [m; d; y] ->
  try_patterns patterns s
  = Some (y ++ lit "-" ++ zfill 2 m ++ lit "-" ++ zfill 2 d).
Proof.
  intros H1 H2. unfold patterns. cbn [try_patterns]. rewrite H1, H2. reflexivity.
Qed.

Lemma try_ym (s y m : str) :
  search p_iso s = None -> search p_us s = None -> search p_slash s = None ->
  search p_ym s = Some [y; m] ->
  try_patterns patterns s = Some (y ++ lit "-" ++ zfill 2 m ++ lit "-01").
Proof.
  intros H1 H2 H3 H4. unfold patterns. cbn [try_patterns].
  rewrite H1, H2, H3, H4. reflexivity.
Qed.

Lemma try_y (s y : str) :
  search p_iso s = None -> search p_us s = None -> search p_slash s = None ->
  search p_ym s = None -> search p_y s = Some [y] ->
  try_patterns patterns s = Some (y ++ lit "-01-01").
Proof.
  intros H1 H2 H3 H4 H5. unfold patterns. cbn [try_patterns].
  rewrite H1, H2, H3, H4, H5. reflexivity.
Qed.

Lemma try_none (s : str) :
  no_match s -> try_patterns patterns s = None.
Proof.
  intros H. unfold patterns. cbn [try_patterns].
  rewrite !H; [reflexivity | | | | |]; unfold patterns; simpl; tauto.
Qed.

Lemma match_here_last (lo hi : nat) (g : str) :
  all_digits g = true -> lo <= length g <= hi ->
  match_here [Grp lo hi] g = Some [g].
Proof.
  intros Hg Hlen. rewrite <- (app_nil_r g) at 1.
  apply match_here_grp; simpl; auto.
Qed.

Lemma plain_sep (a b : str) (c : ascii) :
  forallb plain a = true -> plain c = true -> forallb plain b = true ->
  forallb plain (a ++ c :: b) = true.
Proof.
  intros Ha Hc Hb. rewrite forallb_app. simpl. rewrite Ha, Hc, Hb. reflexivity.
Qed.

Lemma year_nonempty (Y t : str) : is_year Y -> Y ++ t <> [].
Proof. intros [H _]. destruct Y; [discriminate H | discriminate]. Qed.

Lemma md_nonempty (M t : str) : is_md M -> M ++ t <> [].
Proof. intros [[H _] _]. destruct M; [inversion H | discriminate]. Qed.

Lemma normalize_iso (Y M D : str) :
  is_year Y -> is_md M -> is_md D ->
  normalize (Y ++ lit "-" ++ M ++ lit "-" ++ D)
  = Ok (Y ++ lit "-" ++ zfill 2 M ++ lit "-" ++ zfill 2 D).
Proof.
  intros HY HM HD.
  rewrite normalize_nonempty by (apply year_nonempty; exact HY).
  destruct HY as [HYl HYd], HM as [HMl HMd], HD as [HDl HDd].
  change (lit "-") with ["-"%char]. cbn [app].
  rewrite clean_plain
    by (repeat apply plain_sep; auto using all_digits_plain).
  rewrite (try_iso _ Y M D); [reflexivity|].
  apply search_here. unfold p_iso.
  apply match_here_grp; [assumption | lia | reflexivity |].
  rewrite match_here_lit.
  apply match_here_grp; [assumption | lia | reflexivity |].
  rewrite match_here_lit. apply match_here_last; [assumption | lia].
Qed.

Lemma occ_sep (c x : ascii) (a b : str) :
  occ c (a ++ x :: b) = occ c a + ((if Ascii.eqb c x then 1 else 0) + occ c b).
Proof.
  rewrite occ_app. unfold occ. simpl. destruct (Ascii.eqb c x); reflexivity.
Qed.

Lemma normalize_us (Y M D : str) :
  is_year Y -> is_md M -> is_md D ->
  normalize (M ++ lit "/" ++ D ++ lit "/" ++ Y)
  = Ok (Y ++ lit "-" ++ zfill 2 M ++ lit "-" ++ zfill 2 D).
Proof.
  intros HY HM HD.
  rewrite normalize_nonempty by (apply md_nonempty; exact HM).
  destruct HY as [HYl HYd], HM as [HMl HMd], HD as [HDl HDd].
  change (lit "/") with ["/"%char]. cbn [app].
  rewrite clean_plain
    by (repeat apply plain_sep; auto using all_digits_plain).
  rewrite (try_us _ M D Y); [reflexivity | |].
  - apply search_none_occ with (c := "-"%char).
    rewrite !occ_sep, !occ_digits by (assumption || reflexivity). simpl. lia.
  - apply search_here. unfold p_us.
    apply match_here_grp; [assumption | lia | reflexivity |].
    rewrite match_here_lit.
    apply match_here_grp; [assumption | lia | reflexivity |].
    rewrite match_here_lit. apply match_here_last; [assumption | lia].
Qed.

Lemma normalize_ym (Y M : str) :
  is_year Y -> is_md M ->
  normalize (Y ++ lit "-" ++ M) = Ok (Y ++ lit "-" ++ zfill 2 M ++ lit "-01").
Proof.
  intros HY HM.
  rewrite normalize_nonempty by (apply year_nonempty; exact HY).
  destruct HY as [HYl HYd], HM as [HMl HMd].
  change (lit "-") with ["-"%char]. cbn [app].
  rewrite clean_plain
    by (repeat apply plain_sep; auto using all_digits_plain).
  rewrite (try_ym _ Y M); [reflexivity | | | |].
  - apply search_none_occ with (c := "-"%char).
    rewrite !occ_sep, !occ_digits by (assumption || reflexivity). simpl. lia.
  - apply search_none_occ with (c := "/"%char).
    rewrite !occ_sep, !occ_digits by (assumption || reflexivity). simpl. lia.
  - apply search_none_occ with (c := "/"%char).
    rewrite !occ_sep, !occ_digits by (assumption || reflexivity). simpl. lia.
  - apply search_here. unfold p_ym.
    apply match_here_grp; [assumption | lia | reflexivity |].
    rewrite match_here_lit. apply match_here_last; [assumption | lia].
Qed.

Lemma normalize_year (Y : str) :
  is_year Y -> normalize Y = Ok (Y ++ lit "-01-01").
Proof.
  intros HY.
  rewrite normalize_nonempty
    by (rewrite <- (app_nil_r Y); apply year_nonempty; exact HY).
  destruct HY as [HYl HYd].
  rewrite clean_plain by auto using all_digits_plain.
  rewrite (try_y _ Y); [reflexivity | | | | |].
  - apply search_none_occ with (c := "-"%char).
    rewrite occ_digits by (assumption || reflexivity). simpl. lia.
  - apply search_none_occ with (c := "/"%char).
    rewrite occ_digits by (assumption || reflexivity). simpl. lia.
  - apply search_none_occ with (c := "/"%char).
    rewrite occ_digits by (assumption || reflexivity). simpl. lia.
  - apply search_none_occ with (c := "-"%char).
    rewrite occ_digits by (assumption || reflexivity). simpl. lia.
  - apply search_here. apply match_here_last; [assumption | lia].
Qed.

(** ** Decimal numbers below 100 *)

Lemma str_eqb_eq (a b : str) : str_eqb a b = true -> a = b.
Proof.
  revert b. induction a as [|x a IH]; intros [|y b] H; simpl in H;
    try discriminate; [reflexivity|].
  apply andb_prop in H as [Hxy Hab]. apply Ascii.eqb_eq in Hxy.
  rewrite Hxy, (IH _ Hab). reflexivity.
Qed.

Lemma dec_ok_below_100 (n : nat) : n < 100 -> dec_ok n = true.
Proof.
  intros H. do 100 (destruct n as [|n]; [vm_compute; reflexivity|]). lia.
Qed.

Lemma dec_md (n : nat) : n < 100 -> is_md (dec n).
Proof.
  intros H. apply dec_ok_below_100 in H. unfold dec_ok in H.
  apply andb_prop in H as [H _]. apply andb_prop in H as [H Hd].
  apply andb_prop in H as [H1 H2].
  apply Nat.leb_le in H1. apply Nat.leb_le in H2.
  split; [lia | exact Hd].
Qed.

Lemma zfill_dec (n : nat) : n < 100 -> zfill 2 (dec n) = fmt02 n.
Proof.
  intros H. apply dec_ok_below_100 in H. unfold dec_ok in H.
  apply andb_prop in H as [_ H]. exact (str_eqb_eq _ _ H).
Qed.

(** ** Canonical results *)

Lemma year_chars (y : str) :
  is_year y ->
  exists a b c d, y = [a; b; c; d]
    /\ is_digit a = true /\ is_digit b = true
    /\ is_digit c = true /\ is_digit d = true.
Proof.
  intros [Hl Hd].
  destruct y as [|a [|b [|c [|d [|e y]]]]]; try discriminate Hl.
  exists a, b, c, d. unfold all_digits in Hd. simpl in Hd.
  repeat (apply andb_prop in Hd as [? Hd]). auto.
Qed.

Lemma zfill_md (m : str) :
  is_md m ->
  exists a b, zfill 2 m = [a; b] /\ is_digit a = true /\ is_digit b = true.
Proof.
  intros [Hl Hd]. unfold all_digits in Hd.
  destruct m as [|a [|b [|c m]]]; simpl in Hl; try lia; simpl in Hd.
  - apply andb_prop in Hd as [Ha _]. exists "0"%char, a.
    unfold zfill. rewrite (digit_not_sign a Ha). simpl. auto.
  - apply andb_prop in Hd as [Ha Hd]. apply andb_prop in Hd as [Hb _].
    exists a, b. unfold zfill. rewrite (digit_not_sign a Ha). simpl. auto.
Qed.

Lemma canonical_build (y m d : str) :
  is_year y -> is_md m -> is_md d ->
  canonical (y ++ lit "-" ++ zfill 2 m ++ lit "-" ++ zfill 2 d) = true.
Proof.
  intros Hy Hm Hd.
  destruct (year_chars y Hy) as (a & b & c & e & -> & Ha & Hb & Hc & He).
  destruct (zfill_md m Hm) as (m1 & m2 & -> & Hm1 & Hm2).
  destruct (zfill_md d Hd) as (d1 & d2 & -> & Hd1 & Hd2).
  simpl. rewrite Ha, Hb, Hc, He, Hm1, Hm2, Hd1, Hd2. reflexivity.
Qed.

Lemma zfill_two (a b : ascii) : zfill 2 [a; b] = [a; b].
Proof. unfold zfill. simpl. destruct (_ || _); reflexivity. Qed.

Lemma one_is_md : is_md (lit "1").
Proof. split; [simpl; lia | reflexivity]. Qed.

Ltac groups_of E gs :=
  apply search_shape in E;
  destruct gs as [|?g [|?g [|?g [|?g gs]]]]; simpl in E;
  try contradiction; decompose [and] E; try contradiction; try discriminate.

Lemma groups_iso (s : str) (gs : list str) :
  search p_iso s = Some gs ->
  exists y m d, gs = [y; m; d] /\ is_year y /\ is_md m /\ is_md d.
Proof.
  intros E. groups_of E gs. exists g, g0, g1. unfold is_year, is_md.
  repeat split; assumption || lia.
Qed.

Lemma groups_us (s : str) (gs : list str) :
  search p_us s = Some gs ->
  exists m d y, gs = [m; d; y] /\ is_year y /\ is_md m /\ is_md d.
Proof.
  intros E. groups_of E gs. exists g, g0, g1. unfold is_year, is_md.
  repeat split; assumption || lia.
Qed.

Lemma groups_slash (s : str) (gs : list str) :
  search p_slash s = Some gs ->
  exists y m d, gs = [y; m; d] /\ is_year y /\ is_md m /\ is_md d.
Proof.
  intros E. groups_of E gs. exists g, g0, g1. unfold is_year, is_md.
  repeat split; assumption || lia.
Qed.

Lemma groups_ym (s : str) (gs : list str) :
  search p_ym s = Some gs ->
  exists y m, gs = [y; m] /\ is_year y /\ is_md m.
Proof.
  intros E. groups_of E gs. exists g, g0. unfold is_year, is_md.
  repeat split; assumption || lia.
Qed.

Lemma groups_y (s : str) (gs : list str) :
  search p_y s = Some gs -> exists y, gs = [y] /\ is_year y.
Proof.
  intros E. groups_of E gs. exists g. unfold is_year.
  repeat split; assumption || lia.
Qed.

(** The first pattern that matches decides, and its result is canonical. *)
Lemma try_patterns_canonical (cs r : str) :
  try_patterns patterns cs = Some r -> canonical r = true.
Proof.
  destruct (search p_iso cs) as [gs|] eqn:E1.
  { destruct (groups_iso _ _ E1) as (y & m & d & -> & Hy & Hm & Hd).
    rewrite (try_iso _ _ _ _ E1). intros [= <-].
    exact (canonical_build y m d Hy Hm Hd). }
  destruct (search p_us cs) as [gs|] eqn:E2.
  { destruct (groups_us _ _ E2) as (m & d & y & -> & Hy & Hm & Hd).
    rewrite (try_us _ _ _ _ E1 E2). intros [= <-].
    exact (canonical_build y m d Hy Hm Hd). }
  destruct (search p_slash cs) as [gs|] eqn:E3.
  { destruct (groups_slash _ _ E3) as (y & m & d & -> & Hy & Hm & Hd).
    unfold patterns. cbn [try_patterns]. rewrite E1, E2, E3.
    intros [= <-]. apply canonical_build; assumption. }
  destruct (search p_ym cs) as [gs|] eqn:E4.
  { destruct (groups_ym _ _ E4) as (y & m & -> & Hy & Hm).
    rewrite (try_ym _ _ _ E1 E2 E3 E4). intros [= <-].
    exact (canonical_build y m (lit "1") Hy Hm one_is_md). }
  destruct (search p_y cs) as [gs|] eqn:E5.
  { destruct (groups_y _ _ E5) as (y & -> & Hy).
    rewrite (try_y _ _ E1 E2 E3 E4 E5). intros [= <-].
    exact (canonical_build y (lit "1") (lit "1") Hy one_is_md one_is_md). }
  unfold patterns. cbn [try_patterns]. rewrite E1, E2, E3, E4, E5. discriminate.
Qed.

Lemma some_match_not_none (cs : str) :
  some_match cs -> try_patterns patterns cs <> None.
Proof.
  intros (p & Hp & Hs).
  destruct (search p_iso cs) as [gs|] eqn:E1.
  { destruct (groups_iso _ _ E1) as (y & m & d & -> & _).
    rewrite (try_iso _ _ _ _ E1). discriminate. }
  destruct (search p_us cs) as [gs|] eqn:E2.
  { destruct (groups_us _ _ E2) as (m & d & y & -> & _).
    rewrite (try_us _ _ _ _ E1 E2). discriminate. }
  destruct (search p_slash cs) as [gs|] eqn:E3.
  { destruct (groups_slash _ _ E3) as (y & m & d & -> & _).
    unfold patterns. cbn [try_patterns]. rewrite E1, E2, E3. discriminate. }
  destruct (search p_ym cs) as [gs|] eqn:E4.
  { destruct (groups_ym _ _ E4) as (y & m & -> & _).
    rewrite (try_ym _ _ _ E1 E2 E3 E4). discriminate. }
  destruct (search p_y cs) as [gs|] eqn:E5.
  { destruct (groups_y _ _ E5) as (y & -> & _).
    rewrite (try_y _ _ E1 E2 E3 E4 E5). discriminate. }
  exfalso. apply Hs. simpl in Hp.
  destruct Hp as [<-|[<-|[<-|[<-|[<-|[]]]]]]; assumption.
Qed.

(** ** The claims on the date normaliser *)

Ltac by_search :=
  let p := fresh "p" in
  let Hp := fresh "Hp" in
  intros p Hp; simpl in Hp;
  destruct Hp as [<-|[<-|[<-|[<-|[<-|[]]]]]]; vm_compute; reflexivity.

Lemma normalize_no_match (s : str) :
  s <> [] -> no_match (clean s) -> normalize s = Ok s.
Proof.
  intros Hs Hno. rewrite (normalize_nonempty s Hs), (try_none _ Hno).
  reflexivity.
Qed.

(** C2, as the code has it: on a non-empty input whose cleaned form no
    pattern matches, [normalize] returns the raw input itself, fillers and
    surrounding whitespace included; the result is the cleaned string only
    when cleaning changed nothing. *)
Theorem normalize_fallback_raw (s : str) :
  s <> [] -> no_match (clean s) ->
  normalize s = Ok s /\ (normalize s = Ok (clean s) <-> clean s = s).
Proof.
  intros Hs Hno. rewrite (normalize_no_match s Hs Hno).
  split; [reflexivity|]. split.
  - intros [= H]. symmetry. exact H.
  - intros ->. reflexivity.
Qed.

Lemma normalize_fallback_raw_witness :
  normalize (lit "founded long ago") = Ok (lit "founded long ago")
  /\ (normalize (lit "founded long ago") = Ok (clean (lit "founded long ago"))
      <-> clean (lit "founded long ago") = lit "founded long ago").
Proof.
  apply (normalize_fallback_raw (lit "founded long ago")).
  - discriminate.
  - by_search.
Defined.

(** C2 as stated fails: "founded long ago" is non-empty, no pattern matches
    its cleaned form "long ago", and the result is not that cleaned form. *)
Lemma normalize_fallback_not_cleaned :
  lit "founded long ago" <> []
  /\ no_match (clean (lit "founded long ago"))
  /\ clean (lit "founded long ago") = lit "long ago"
  /\ normalize (lit "founded long ago") = Ok (lit "founded long ago")
  /\ normalize (lit "founded long ago") <> Ok (clean (lit "founded long ago")).
Proof.
  split; [discriminate|]. split; [by_search|].
  split; [reflexivity|]. split; [reflexivity|].
  vm_compute. discriminate.
Qed.

(** C3: [normalize] returns on every string; the result is the empty string
    for an empty or absent input, and the input unchanged when it is
    non-empty and no pattern matches. *)
Theorem normalize_total (s : str) :
  (exists r, normalize s = Ok r)
  /\ _normalize_date VNone = Ok []
  /\ normalize [] = Ok []
  /\ (s <> [] -> no_match (clean s) -> normalize s = Ok s).
Proof.
  split; [|split; [reflexivity|split; [reflexivity|]]].
  - destruct s as [|c t]; [exists []; reflexivity|].
    rewrite normalize_nonempty by discriminate. eexists. reflexivity.
  - exact (normalize_no_match s).
Qed.

Lemma normalize_total_witness :
  normalize (lit "not a date") = Ok (lit "not a date").
Proof.
  apply (normalize_total (lit "not a date")).
  - discriminate.
  - by_search.
Defined.

(** C4: for a four-digit year Y and numbers M and D below 100 written
    without padding, "M/D/Y" and "Y-M-D" both normalise to
    "Y-{M:02d}-{D:02d}"; the dash pattern is tried first and the slash
    pattern second. *)
Theorem normalize_cross_format (Y : str) (M D : nat) :
  is_year Y -> M < 100 -> D < 100 ->
  normalize (dec M ++ lit "/" ++ dec D ++ lit "/" ++ Y)
    = Ok (Y ++ lit "-" ++ fmt02 M ++ lit "-" ++ fmt02 D)
  /\ normalize (Y ++ lit "-" ++ dec M ++ lit "-" ++ dec D)
    = Ok (Y ++ lit "-" ++ fmt02 M ++ lit "-" ++ fmt02 D)
  /\ exists later, patterns = p_iso :: p_us :: later.
Proof.
  intros HY HM HD.
  rewrite <- (zfill_dec M HM), <- (zfill_dec D HD).
  split; [|split].
  - apply normalize_us; auto using dec_md.
  - apply normalize_iso; auto using dec_md.
  - eexists. reflexivity.
Qed.

Lemma normalize_cross_format_witness :
  normalize (lit "5/8/1886") = Ok (lit "1886-05-08")
  /\ normalize (lit "1886-5-8") = Ok (lit "1886-05-08")
  /\ exists later, patterns = p_iso :: p_us :: later.
Proof.
  apply (normalize_cross_format (lit "1886") 5 8).
  - split; reflexivity.
  - lia.
  - lia.
Defined.

Lemma try_patterns_year (Y : str) :
  is_year Y -> try_patterns patterns Y = Some (Y ++ lit "-01-01").
Proof.
  intros [HYl HYd]. apply try_y.
  - apply search_none_occ with (c := "-"%char).
    rewrite occ_digits by (assumption || reflexivity). simpl. lia.
  - apply search_none_occ with (c := "/"%char).
    rewrite occ_digits by (assumption || reflexivity). simpl. lia.
  - apply search_none_occ with (c := "/"%char).
    rewrite occ_digits by (assumption || reflexivity). simpl. lia.
  - apply search_none_occ with (c := "-"%char).
    rewrite occ_digits by (assumption || reflexivity). simpl. lia.
  - apply search_here. apply match_here_last; [assumption | lia].
Qed.

(** A filler word, a space and a year: the substitution takes the word
    away and the trimming takes the space. *)
Lemma clean_filler_year (w Y : str) :
  In w fillers -> is_year Y ->
  sub_fillers (w ++ lit " " ++ Y) = lit " " ++ Y
  /\ clean (w ++ lit " " ++ Y) = Y.
Proof.
  intros Hw [HYl HYd]. pose proof (all_digits_plain Y HYd) as Hplain.
  assert (Hsub : sub_fillers (w ++ lit " " ++ Y) = lit " " ++ Y).
  { unfold fillers in Hw. simpl in Hw.
    destruct Hw as [<-|[<-|[<-|[<-|[<-|[<-|[]]]]]]];
      unfold sub_fillers; simpl; rewrite (sub_scan_plain Y _ Hplain); reflexivity. }
  split; [exact Hsub|].
  unfold clean, strip, rstrip. rewrite Hsub. cbn [lit list_ascii_of_string app lstrip].
  change (is_space " "%char) with true. cbv iota.
  rewrite (lstrip_plain Y Hplain).
  rewrite (lstrip_plain _ (forallb_rev _ _ _ Hplain)). apply rev_involutive.
Qed.

(** C5: a bare four-digit year Y gives "Y-01-01"; "Y-M" with M from 1 to 12
    unpadded gives "Y-{M:02d}-01"; the empty string gives the empty string;
    filler words are stripped first: the substitution turns
    "founded in 1999" into two spaces and "1999", cleaning leaves "1999", and
    the result is "1999-01-01"; and for each of the six filler words w,
    "w Y" is cleaned to Y and normalised to "Y-01-01". *)
Theorem normalize_completes (Y : str) (M : nat) :
  is_year Y -> 1 <= M <= 12 ->
  normalize Y = Ok (Y ++ lit "-01-01")
  /\ normalize (Y ++ lit "-" ++ dec M) = Ok (Y ++ lit "-" ++ fmt02 M ++ lit "-01")
  /\ normalize (lit "founded in 1999") = Ok (lit "1999-01-01")
  /\ normalize [] = Ok []
  /\ sub_fillers (lit "founded in 1999") = lit "  1999"
  /\ clean (lit "founded in 1999") = lit "1999"
  /\ (forall w, In w fillers ->
                clean (w ++ lit " " ++ Y) = Y
                /\ normalize (w ++ lit " " ++ Y) = Ok (Y ++ lit "-01-01")).
Proof.
  intros HY HM.
  assert (HM' : M < 100) by lia.
  rewrite <- (zfill_dec M HM').
  split; [|split; [|split; [|split; [|split; [|split]]]]]; try reflexivity.
  - apply normalize_year. exact HY.
  - apply normalize_ym; auto using dec_md.
  - intros w Hw. destruct (clean_filler_year w Y Hw HY) as [_ Hclean].
    split; [exact Hclean|].
    rewrite normalize_nonempty.
    + rewrite Hclean, (try_patterns_year Y HY). reflexivity.
    + intros E. apply app_eq_nil in E as [_ E]. discriminate E.
Qed.

Lemma normalize_completes_witness :
  normalize (lit "2008") = Ok (lit "2008-01-01")
  /\ normalize (lit "2008-8") = Ok (lit "2008-08-01")
  /\ normalize (lit "founded in 1999") = Ok (lit "1999-01-01")
  /\ normalize [] = Ok []
  /\ sub_fillers (lit "founded in 1999") = lit "  1999"
  /\ clean (lit "founded in 1999") = lit "1999"
  /\ clean (lit "established 2008") = lit "2008"
  /\ normalize (lit "established 2008") = Ok (lit "2008-01-01").
Proof.
  assert (HY : is_year (lit "2008")) by (split; reflexivity).
  assert (HM : 1 <= 8 <= 12) by lia.
  destruct (normalize_completes (lit "2008") 8 HY HM)
    as (H1 & H2 & H3 & H4 & H5 & H6 & H7).
  assert (Hw : In (lit "established") fillers)
    by (right; right; right; left; reflexivity).
  destruct (H7 (lit "established") Hw) as [H8 H9].
  repeat split; assumption.
Defined.

(** C10: when a pattern matches the cleaned input the result is a full
    match of [\d{4}-\d{2}-\d{2}]; the captured groups are padded and not
    range-checked, so any two-digit month and day come out as they are, as
    in "99/99/1999". *)
Theorem normalize_match_canonical (s : str) :
  some_match (clean s) ->
  (exists r, normalize s = Ok r /\ canonical r = true)
  /\ (forall Y M D,
        is_year Y ->
        length M = 2 -> all_digits M = true ->
        length D = 2 -> all_digits D = true ->
        normalize (M ++ lit "/" ++ D ++ lit "/" ++ Y)
        = Ok (Y ++ lit "-" ++ M ++ lit "-" ++ D))
  /\ normalize (lit "99/99/1999") = Ok (lit "1999-99-99").
Proof.
  intros Hm.
  assert (Hs : s <> []).
  { intros ->. destruct Hm as (p & Hp & Hsome). apply Hsome. clear Hsome.
    revert p Hp. by_search. }
  split; [|split; [|reflexivity]].
  - rewrite (normalize_nonempty s Hs).
    destruct (try_patterns patterns (clean s)) as [r|] eqn:E.
    + exists r. split; [reflexivity | exact (try_patterns_canonical _ _ E)].
    + exfalso. exact (some_match_not_none _ Hm E).
  - intros Y M D HY HMl HMd HDl HDd.
    assert (HM : is_md M) by (split; [lia | exact HMd]).
    assert (HD : is_md D) by (split; [lia | exact HDd]).
    rewrite (normalize_us Y M D HY HM HD).
    destruct M as [|m1 [|m2 [|m3 M]]]; try discriminate HMl.
    destruct D as [|d1 [|d2 [|d3 D]]]; try discriminate HDl.
    rewrite !zfill_two. reflexivity.
Qed.

Lemma normalize_match_canonical_witness :
  exists r, normalize (lit "on 13/32/2001") = Ok r /\ canonical r = true.
Proof.
  apply (normalize_match_canonical (lit "on 13/32/2001")).
  exists p_us. split; [simpl; tauto | vm_compute; discriminate].
Defined.

(** ** The paragraph loop *)

Example end_to_end :
  process_text_direct svc_acme fs_ok acme_text = Ok [acme_record].
Proof. reflexivity. Qed.

Example paragraphs_two :
  paragraphs two_paragraphs
  = [lit "First paragraph."; lit "Acme Corp was founded in 1999."].
Proof. reflexivity. Qed.

Lemma for_companies_from (items : list PyVal) :
  forall all,
    for_companies items all
    = (all ++ fst (for_companies items []), snd (for_companies items [])).
Proof.
  induction items as [|x items IH]; intros all; simpl.
  - rewrite app_nil_r. reflexivity.
  - destruct (build_company x) as [c|e]; simpl.
    + rewrite (IH (all ++ [c])), (IH [c]). simpl. rewrite <- app_assoc. reflexivity.
    + rewrite app_nil_r. reflexivity.
Qed.

Lemma handle_result_from (result : PyVal) (all : list CompanyInfo) :
  handle_result result all
  = (all ++ records_of result, snd (handle_result result [])).
Proof.
  unfold records_of, handle_result.
  destruct (dict_with _ result) as [companies|]; simpl.
  - destruct (iterate companies) as [items|e]; simpl.
    + apply for_companies_from.
    + rewrite app_nil_r. reflexivity.
  - rewrite app_nil_r. reflexivity.
Qed.

(** The loop adds, paragraph by paragraph, what each returned result
    contributes, and prints one line for each error it catches. *)
Lemma for_paragraphs_spec (svc : Service) (ps : list str) :
  forall k st,
    all_companies (for_paragraphs svc k ps st)
      = all_companies st ++ flat_map records_of (returned svc k ps)
    /\ stdout (for_paragraphs svc k ps st)
      = stdout st ++ map error_line (caught svc k ps).
Proof.
  induction ps as [|p ps IH]; intros k st; simpl.
  - rewrite !app_nil_r. split; reflexivity.
  - destruct (IH (S k) (paragraph_step svc k p st)) as [Ha Hs].
    rewrite Ha, Hs. unfold paragraph_step.
    destruct (svc k p) as [result|e]; simpl.
    + rewrite (handle_result_from result (all_companies st)).
      destruct (snd (handle_result result [])) as [e|]; simpl;
        rewrite <- !app_assoc; split; reflexivity.
    + split; [reflexivity|]. rewrite <- app_assoc. reflexivity.
Qed.

(** C1 at a failing input: two paragraphs, the first call times out and the
    second answers. The loop does what is asked of it: it prints
    "Error processing paragraph: Request timed out.", goes on, and ends with
    exactly the record of the second paragraph. The destination cannot be
    opened, and the run raises the error of the export instead of returning
    that record; with a working file system it returns it. *)
Theorem service_failure_then_export_failure :
  paragraphs two_paragraphs
  = [lit "First paragraph."; lit "Acme Corp was founded in 1999."]
  /\ svc_first_fails 0 (lit "First paragraph.")
     = Raise (OtherError (lit "Request timed out."))
  /\ svc_first_fails 1 (lit "Acme Corp was founded in 1999.") = Ok acme_result
  /\ records_of acme_result = [acme_record]
  /\ all_companies (run_state svc_first_fails two_paragraphs) = [acme_record]
  /\ stdout (run_state svc_first_fails two_paragraphs)
     = [lit "Error processing paragraph: Request timed out."]
  /\ process_text_direct svc_first_fails fs_denied two_paragraphs
     = Raise permission_denied
  /\ process_text_direct svc_first_fails fs_ok two_paragraphs = Ok [acme_record].
Proof. repeat split. Qed.

(** The same two paragraphs with every file operation succeeding: the
    second answer has founders that cannot be joined, and the run raises. *)
Example service_failure_then_unjoinable_founders :
  stdout (run_state svc_fails_then_numbered two_paragraphs)
  = [lit "Error processing paragraph: Request timed out."]
  /\ process_text_direct svc_fails_then_numbered fs_ok two_paragraphs
     = Raise (TypeError (lit "object is not iterable")).
Proof. split; reflexivity. Qed.

(** The run returns what the loop has accumulated whenever the export that
    follows the loop does not raise. *)
Lemma run_returns_when_export_does (svc : Service) (fs : FileSys) (text : str) :
  snd (_save_companies_to_csv fs (all_companies (run_state svc text))
                              default_filename) = Ok tt ->
  process_text_direct svc fs text
  = Ok (flat_map records_of (returned svc 0 (paragraphs text))).
Proof.
  intros Hsave.
  destruct (for_paragraphs_spec svc (paragraphs text) 0 (mkState [] []))
    as [Ha _].
  simpl in Ha. fold (run_state svc text) in Ha.
  unfold process_text_direct. cbv zeta. rewrite Hsave. simpl.
  rewrite Ha. reflexivity.
Qed.

(** ** Reading one result *)

Lemma build_company_not_dict (x : PyVal) :
  is_dict x = false -> build_company x = Raise no_get.
Proof. destruct x; simpl; intros H; try discriminate H; reflexivity. Qed.

Lemma for_companies_app (pre : list PyVal) (recs : list CompanyInfo) :
  built pre recs ->
  forall rest all,
    for_companies (pre ++ rest) all = for_companies rest (all ++ recs).
Proof.
  induction 1 as [|x c pre recs Hx _ IH]; intros rest all; simpl.
  - rewrite app_nil_r. reflexivity.
  - rewrite Hx, IH, <- app_assoc. reflexivity.
Qed.

(** C6, as the code has it: an element that is not a mapping raises inside
    the paragraph's [try]; the records of the elements before it stay, the
    element and all that follow it in the paragraph are not processed, the
    error is printed, and the loop goes on with the next paragraph. *)
Theorem non_mapping_element_stops_paragraph
  (result : PyVal) (pre post : list PyVal) (recs : list CompanyInfo) (bad : PyVal) :
  dict_with (lit "companies") result = Some (VList (pre ++ bad :: post)) ->
  built pre recs -> is_dict bad = false ->
  (forall all, handle_result result all = (all ++ recs, Some no_get))
  /\ (forall svc k p ps st,
        svc k p = Ok result ->
        for_paragraphs svc k (p :: ps) st
        = for_paragraphs svc (S k) ps
            (mkState (all_companies st ++ recs)
                     (stdout st ++ [error_line no_get]))).
Proof.
  intros Hres Hpre Hbad.
  assert (H : forall all, handle_result result all = (all ++ recs, Some no_get)).
  { intros all. unfold handle_result. rewrite Hres. simpl.
    rewrite (for_companies_app pre recs Hpre). simpl.
    rewrite (build_company_not_dict bad Hbad). reflexivity. }
  split; [exact H|].
  intros svc k p ps st Hsvc. simpl. unfold paragraph_step.
  rewrite Hsvc, H. reflexivity.
Qed.

Lemma non_mapping_element_stops_paragraph_witness :
  handle_result
    (VDict [(lit "companies", VList ([acme_dict] ++ VInt 5 :: [acme_dict]))]) []
  = ([acme_record], Some no_get).
Proof.
  refine (proj1 (non_mapping_element_stops_paragraph
    (VDict [(lit "companies", VList ([acme_dict] ++ VInt 5 :: [acme_dict]))])
    [acme_dict] [acme_dict] [acme_record] (VInt 5) _ _ _) []).
  - reflexivity.
  - constructor; [reflexivity | constructor].
  - reflexivity.
Defined.

(** C6 as stated fails: with a number in front of a well-formed entry the
    code keeps no record of the paragraph and reports an error, where the
    validator of the specification keeps the entry. *)
Lemma non_mapping_element_not_skipped :
  dict_with (lit "companies") mixed_result = Some (VList [VInt 5; acme_dict])
  /\ handle_result mixed_result [] = ([], Some no_get)
  /\ spec_validate [VInt 5; acme_dict] = [acme_record]
  /\ records_of mixed_result <> spec_validate [VInt 5; acme_dict].
Proof.
  split; [reflexivity|]. split; [reflexivity|]. split; [reflexivity|].
  vm_compute. discriminate.
Qed.

(** C7, as the code has it: for a mapping whose [founding_date] (the empty
    string when absent) the normaliser accepts, the record has
    [company_name] or the empty string, the normalised date, and the
    [founders] value as it is, of whatever shape, or the empty list when
    the key is absent. *)
Theorem build_company_fields (kv : list (str * PyVal)) (date : str) :
  _normalize_date (field_or kv (lit "founding_date") (VStr [])) = Ok date ->
  build_company (VDict kv)
  = Ok (mkCompanyInfo (field_or kv (lit "company_name") (VStr []))
                      date
                      (field_or kv (lit "founders") (VList []))).
Proof.
  intros Hdate. unfold build_company, get, field_or in *.
  destruct (lookup (lit "company_name") kv);
    destruct (lookup (lit "founding_date") kv);
    destruct (lookup (lit "founders") kv);
    cbv beta iota delta [bind]; rewrite Hdate; reflexivity.
Qed.

Lemma build_company_fields_witness :
  build_company loose_dict
  = Ok (mkCompanyInfo (VStr (lit "Acme Corp")) (lit "1999-01-01")
                      (VStr (lit "Jane Doe"))).
Proof.
  apply (build_company_fields
           [(lit "company_name", VStr (lit "Acme Corp"));
            (lit "founding_date", VStr (lit "founded in 1999"));
            (lit "founders", VStr (lit "Jane Doe"))]
           (lit "1999-01-01")).
  reflexivity.
Defined.

(** C7 as stated fails: a [founders] value that is a string is stored in
    the record, not replaced by the empty sequence. *)
Lemma founders_not_coerced :
  is_list (VStr (lit "Jane Doe")) = false
  /\ build_company loose_dict
     = Ok (mkCompanyInfo (VStr (lit "Acme Corp")) (lit "1999-01-01")
                         (VStr (lit "Jane Doe")))
  /\ spec_record loose_dict
     = Ok (mkCompanyInfo (VStr (lit "Acme Corp")) (lit "1999-01-01") (VList []))
  /\ build_company loose_dict <> spec_record loose_dict.
Proof.
  split; [reflexivity|]. split; [reflexivity|]. split; [reflexivity|].
  vm_compute. discriminate.
Qed.

(** The normaliser accepts exactly the strings and the falsy values. *)
Lemma normalize_accepts (v : PyVal) :
  (exists date, _normalize_date v = Ok date)
  <-> ((exists s, v = VStr s) \/ truthy v = false).
Proof.
  split.
  - intros [date H]. unfold _normalize_date in H.
    destruct (truthy v) eqn:Ht; [|right; reflexivity].
    left. destruct v; simpl in H; try discriminate H. eexists. reflexivity.
  - intros [[s ->]|Ht].
    + destruct s as [|c t]; [exists []; reflexivity|].
      change (_normalize_date (VStr (c :: t))) with (normalize (c :: t)).
      rewrite normalize_nonempty by discriminate. eexists. reflexivity.
    + unfold _normalize_date. rewrite Ht. simpl. eexists. reflexivity.
Qed.

(** A date that is neither a string nor falsy makes the entry raise. *)
Example build_company_numeric_date :
  build_company (VDict [(lit "founding_date", VInt 1999)])
  = Raise (TypeError (lit "expected string or bytes-like object")).
Proof. reflexivity. Qed.

(** ** The export *)

Lemma open_failure_raises (svc : Service) (fs : FileSys) (text : str) (e : exn) :
  fs_open fs default_filename = Some e ->
  process_text_direct svc fs text = Raise e.
Proof.
  intros H. unfold process_text_direct, _save_companies_to_csv, with_csv.
  cbv zeta. rewrite H. reflexivity.
Qed.

Lemma save_to_csv_returns (fs : FileSys) (data : list PyVal) (filename : str) :
  exists status,
    snd (save_to_csv fs data filename) = Ok status
    /\ (status = lit "Successfully saved " ++ dec (length data)
                 ++ lit " companies to " ++ filename
        \/ exists e, status = lit "Error saving to CSV: " ++ exn_msg e).
Proof.
  unfold save_to_csv.
  destruct (with_csv dict_row fs filename data) as [written [u|e]]; simpl.
  - eexists. split; [reflexivity|]. left. reflexivity.
  - eexists. split; [reflexivity|]. right. exists e. reflexivity.
Qed.

Lemma save_to_csv_open_failure (fs : FileSys) (data : list PyVal) (filename : str) (e : exn) :
  fs_open fs filename = Some e ->
  save_to_csv fs data filename = ([], Ok (lit "Error saving to CSV: " ++ exn_msg e)).
Proof. intros H. unfold save_to_csv, with_csv. rewrite H. reflexivity. Qed.

Example dec_120 : dec 120 = lit "120".
Proof. reflexivity. Qed.

Example save_to_csv_acme :
  save_to_csv fs_ok [acme_dict] default_filename
  = ([Header fieldnames;
      Row (VStr (lit "Acme Corp")) (VStr (lit "founded in 1999")) (lit "Jane Doe")],
     Ok (lit "Successfully saved 1 companies to company_info.csv")).
Proof. reflexivity. Qed.

(** C8 at a failing input: the service answers, the record is accumulated,
    the destination cannot be opened, and the run raises the error of the
    export instead of returning the record. *)
Theorem export_failure_reaches_caller :
  all_companies (run_state svc_acme acme_text) = [acme_record]
  /\ process_text_direct svc_acme fs_denied acme_text = Raise permission_denied
  /\ process_text_direct svc_acme fs_ok acme_text = Ok [acme_record].
Proof. repeat split. Qed.

(** The export of the run also raises, with every file operation
    succeeding, on a record whose [founders] cannot be joined. *)
Example unjoinable_founders_reach_caller :
  process_text_direct svc_numbered fs_ok acme_text
  = Raise (TypeError (lit "object is not iterable")).
Proof. reflexivity. Qed.

(** C9 on the two exports: [save_to_csv] always returns a status, the count
    on success or the error's text on failure; [_save_companies_to_csv]
    with the same unwritable destination raises. *)
Theorem export_status_only_in_tool :
  (forall fs data filename,
      exists status,
        snd (save_to_csv fs data filename) = Ok status
        /\ (status = lit "Successfully saved " ++ dec (length data)
                     ++ lit " companies to " ++ filename
            \/ exists e, status = lit "Error saving to CSV: " ++ exn_msg e))
  /\ snd (save_to_csv fs_denied [acme_dict] default_filename)
     = Ok (lit "Error saving to CSV: [Errno 13] Permission denied")
  /\ snd (_save_companies_to_csv fs_denied [acme_record] default_filename)
     = Raise permission_denied.
Proof.
  split; [exact save_to_csv_returns|]. split; reflexivity.
Qed.

(** * Further properties *)

(** ** The normaliser: fixed points *)

Lemma canonical_fixed (r : str) : canonical r = true -> normalize r = Ok r.
Proof.
  intros H. unfold canonical in H.
  destruct r as [|y1 [|y2 [|y3 [|y4 [|h1 [|m1 [|m2 [|h2 [|d1 [|d2 [|x r]]]]]]]]]]];
    try discriminate H.
  apply andb_prop in H as [H Hh2]. apply andb_prop in H as [H Hh1].
  apply Ascii.eqb_eq in Hh1, Hh2. subst h1 h2.
  cbn [forallb] in H.
  repeat (let Hd := fresh "Hd" in apply andb_prop in H as [Hd H]).
  assert (HY : is_year [y1; y2; y3; y4]).
  { split; [reflexivity|]. unfold all_digits. simpl.
    rewrite Hd, Hd0, Hd1, Hd2. reflexivity. }
  assert (HM : is_md [m1; m2]).
  { split; [simpl; lia|]. unfold all_digits. simpl. rewrite Hd3, Hd4. reflexivity. }
  assert (HD : is_md [d1; d2]).
  { split; [simpl; lia|]. unfold all_digits. simpl. rewrite Hd5, Hd6. reflexivity. }
  pose proof (normalize_iso _ _ _ HY HM HD) as E.
  rewrite !zfill_two in E. exact E.
Qed.

(** On a non-empty input the result is canonical or the input itself. *)
Lemma normalize_cases (s : str) :
  s <> [] ->
  (exists r, normalize s = Ok r /\ canonical r = true) \/ normalize s = Ok s.
Proof.
  intros Hs. rewrite (normalize_nonempty s Hs).
  destruct (try_patterns patterns (clean s)) as [r|] eqn:E.
  - left. exists r. split; [reflexivity | exact (try_patterns_canonical _ _ E)].
  - right. reflexivity.
Qed.

Lemma normalize_stable (s r : str) : normalize s = Ok r -> normalize r = Ok r.
Proof.
  intros H. destruct s as [|c t].
  - inversion H. reflexivity.
  - destruct (normalize_cases (c :: t)) as [(r' & Hr & Hc)|Hsame]; [discriminate| |].
    + rewrite Hr in H. inversion H; subst. exact (canonical_fixed _ Hc).
    + rewrite Hsame in H. inversion H; subst. exact Hsame.
Qed.

(** X1: normalising is idempotent: whatever [normalize] returns on a string
    is returned unchanged when normalised again. *)
Theorem normalize_idempotent (s r : str) :
  normalize s = Ok r -> normalize r = Ok r.
Proof. exact (normalize_stable s r). Qed.

Lemma normalize_idempotent_witness :
  normalize (lit "1886-05-08") = Ok (lit "1886-05-08").
Proof.
  apply (normalize_idempotent (lit "On 5/8/1886") (lit "1886-05-08")).
  reflexivity.
Defined.

(** X2: on every string the result is either the input itself or a full
    match of [\d{4}-\d{2}-\d{2}], and it is empty only for the empty input. *)
Theorem normalize_raw_or_canonical (s : str) :
  exists r,
    normalize s = Ok r
    /\ (r = s \/ canonical r = true)
    /\ (r = [] <-> s = []).
Proof.
  destruct s as [|c t].
  - exists []. repeat split; auto.
  - destruct (normalize_cases (c :: t)) as [(r & Hr & Hc)|Hsame]; [discriminate| |].
    + exists r. split; [exact Hr|]. split; [right; exact Hc|].
      split; [|discriminate]. intros ->. discriminate Hc.
    + exists (c :: t). split; [exact Hsame|]. split; [left; reflexivity|].
      split; intros H; exact H.
Qed.

(** ** Cleaning keeps the digits *)

Lemma space_not_digit (c : ascii) : is_space c = true -> is_digit c = false.
Proof. by_cases c; reflexivity. Qed.

Lemma digit_lower (c : ascii) : is_digit c = true -> lower c = c.
Proof. by_cases c; reflexivity. Qed.

Lemma lit_ci_no_digits (w : str) :
  forallb (fun a => negb (is_digit a)) w = true ->
  forall s prev last rest,
    lit_ci w s prev = Some (last, rest) ->
    digits_of (firstn (length w) s) = [].
Proof.
  induction w as [|a w IH]; intros Hw s prev last rest H; [reflexivity|].
  simpl in Hw. apply andb_prop in Hw as [Ha Hw].
  destruct s as [|c t]; [discriminate H|]. simpl in H.
  destruct (Ascii.eqb a (lower c)) eqn:E; [|discriminate H].
  apply Ascii.eqb_eq in E. simpl. unfold digits_of in *. simpl.
  destruct (is_digit c) eqn:Hc.
  - rewrite (digit_lower c Hc) in E. subst a. rewrite Hc in Ha. discriminate Ha.
  - exact (IH Hw _ _ _ _ H).
Qed.

Lemma first_alt_no_digits (ws : list str) (prev : option ascii) (s : str) (n : nat) :
  letters_only ws = true ->
  first_alt ws prev s = Some n ->
  1 <= n /\ digits_of (firstn n s) = [].
Proof.
  induction ws as [|w ws IH]; intros Hws H; [discriminate H|].
  simpl in Hws. apply andb_prop in Hws as [Hw Hws].
  apply andb_prop in Hw as [Hlen Hw].
  simpl in H. destruct (lit_ci w s prev) as [[last rest]|] eqn:E.
  - destruct (at_boundary last rest).
    + inversion H; subst. split.
      * destruct w; [discriminate Hlen | simpl; lia].
      * exact (lit_ci_no_digits w Hw _ _ _ _ E).
    + exact (IH Hws H).
  - exact (IH Hws H).
Qed.

Lemma match_filler_no_digits (prev : option ascii) (s : str) (n : nat) :
  match_filler prev s = Some n -> 1 <= n /\ digits_of (firstn n s) = [].
Proof.
  unfold match_filler. destruct (at_boundary prev s); [|discriminate].
  apply first_alt_no_digits. reflexivity.
Qed.

Lemma sub_scan_digits (s : str) :
  forall prev k,
    digits_of (firstn k s) = [] ->
    digits_of (sub_scan prev k s) = digits_of s.
Proof.
  unfold digits_of.
  induction s as [|c t IH]; intros prev k Hk; [reflexivity|].
  destruct k as [|k]; cbn [sub_scan].
  - destruct (match_filler prev (c :: t)) as [n|] eqn:E.
    + apply match_filler_no_digits in E as [Hn Hd].
      destruct n as [|n]; [lia|]. unfold digits_of in Hd. simpl in Hd. simpl.
      destruct (is_digit c); [discriminate Hd|]. exact (IH _ _ Hd).
    + simpl. rewrite (IH (Some c) 0 eq_refl). reflexivity.
  - simpl in Hk. simpl. destruct (is_digit c); [discriminate Hk|].
    exact (IH _ _ Hk).
Qed.

Lemma lstrip_digits (s : str) : digits_of (lstrip s) = digits_of s.
Proof.
  unfold digits_of. induction s as [|c t IH]; [reflexivity|]. simpl.
  destruct (is_space c) eqn:E; [|reflexivity].
  rewrite (space_not_digit c E). exact IH.
Qed.

Lemma sub_scan_length (s : str) :
  forall prev k, length (sub_scan prev k s) <= length s.
Proof.
  induction s as [|c t IH]; intros prev k; [simpl; lia|].
  destruct k as [|k]; cbn [sub_scan].
  - destruct (match_filler prev (c :: t)); simpl.
    + specialize (IH (Some c) (pred n)). lia.
    + specialize (IH (Some c) 0). lia.
  - simpl. specialize (IH (Some c) k). lia.
Qed.

Lemma lstrip_length (s : str) : length (lstrip s) <= length s.
Proof.
  induction s as [|c t IH]; simpl; [lia|]. destruct (is_space c); simpl; lia.
Qed.

(** X3: cleaning a date string (filler words removed, whitespace trimmed)
    never drops, adds or reorders a digit, and never makes the string
    longer. *)
Theorem clean_keeps_digits (s : str) :
  digits_of (clean s) = digits_of s /\ length (clean s) <= length s.
Proof.
  unfold clean, strip, rstrip, sub_fillers. split.
  - unfold digits_of at 1. rewrite filter_rev. fold (digits_of (lstrip (rev (lstrip (sub_scan None 0 s))))).
    rewrite lstrip_digits. unfold digits_of at 1. rewrite filter_rev, rev_involutive.
    fold (digits_of (lstrip (sub_scan None 0 s))).
    rewrite lstrip_digits. apply sub_scan_digits. reflexivity.
  - rewrite length_rev.
    pose proof (lstrip_length (rev (lstrip (sub_scan None 0 s)))) as H1.
    rewrite length_rev in H1.
    pose proof (lstrip_length (sub_scan None 0 s)) as H2.
    pose proof (sub_scan_length s None 0) as H3. lia.
Qed.

Example clean_keeps_digits_example :
  clean (lit "  Founded in 1999-3-7 ") = lit "1999-3-7".
Proof. reflexivity. Qed.

(** ** A date inside a longer text *)

Lemma first_some_none {A B : Type} (f : A -> option B) (l : list A) :
  (forall a, In a l -> f a = None) -> first_some f l = None.
Proof.
  induction l as [|a l IH]; intros H; [reflexivity|]. simpl.
  rewrite (H a (or_introl eq_refl)). apply IH. intros x Hx. apply H. right. exact Hx.
Qed.

Lemma match_here_not_digit (lo hi : nat) (p : pattern) (c : ascii) (t : str) :
  1 <= lo -> is_digit c = false -> match_here (Grp lo hi :: p) (c :: t) = None.
Proof.
  intros Hlo Hc. cbn [match_here]. apply first_some_none. intros k Hk.
  apply counts_bounds in Hk. destruct k as [|k]; [lia|]. simpl. rewrite Hc.
  reflexivity.
Qed.

(** The search passes over a text without digits. *)
Lemma search_skip (lo hi : nat) (p : pattern) (pre t : str) :
  1 <= lo -> digits_of pre = [] ->
  search (Grp lo hi :: p) (pre ++ t) = search (Grp lo hi :: p) t.
Proof.
  intros Hlo. unfold digits_of. induction pre as [|c pre IH]; intros Hpre; [reflexivity|].
  simpl in Hpre. destruct (is_digit c) eqn:Hc; [discriminate Hpre|].
  change ((c :: pre) ++ t) with (c :: (pre ++ t)). cbn [search].
  rewrite (match_here_not_digit lo hi p c (pre ++ t) Hlo Hc). exact (IH Hpre).
Qed.

Lemma clean_nil_inv (s : str) : clean s <> [] -> s <> [].
Proof. intros H ->. apply H. reflexivity. Qed.

(** X4: a dashed date wins wherever it stands: when the cleaned text is a
    stretch without digits, then "Y-M-D", then anything not starting with a
    digit, the result is "Y-MM-DD", whatever else the text holds. *)
Theorem normalize_embedded_iso (s pre post Y M D : str) :
  clean s = pre ++ Y ++ lit "-" ++ M ++ lit "-" ++ D ++ post ->
  digits_of pre = [] -> is_year Y -> is_md M -> is_md D -> stops post ->
  normalize s = Ok (Y ++ lit "-" ++ zfill 2 M ++ lit "-" ++ zfill 2 D).
Proof.
  intros Hclean Hpre HY HM HD Hpost.
  assert (Hs : s <> []).
  { apply clean_nil_inv. rewrite Hclean. intros E.
    apply app_eq_nil in E as [_ E]. exact (year_nonempty Y _ HY E). }
  rewrite (normalize_nonempty s Hs), Hclean.
  rewrite (try_iso _ Y M D); [reflexivity|].
  unfold p_iso. rewrite search_skip by (lia || assumption).
  apply search_here. destruct HY as [HYl HYd], HM as [HMl HMd], HD as [HDl HDd].
  change (lit "-") with ["-"%char]. cbn [app].
  apply match_here_grp; [assumption | lia | reflexivity |].
  rewrite match_here_lit.
  apply match_here_grp; [assumption | lia | reflexivity |].
  rewrite match_here_lit.
  apply match_here_grp; [assumption | lia | assumption | reflexivity].
Qed.

Lemma normalize_embedded_iso_witness :
  normalize (lit "Est. 1999-3-7 in Paris, 12/25/2001")
  = Ok (lit "1999-03-07").
Proof.
  apply (normalize_embedded_iso (lit "Est. 1999-3-7 in Paris, 12/25/2001")
           (lit "Est. ") (lit "  Paris, 12/25/2001")
           (lit "1999") (lit "3") (lit "7")).
  - reflexivity.
  - reflexivity.
  - split; reflexivity.
  - split; [simpl; lia | reflexivity].
  - split; [simpl; lia | reflexivity].
  - reflexivity.
Defined.

(** ** Year first, with slashes *)

Lemma digits_exact_shorter (k : nat) :
  forall s g rest j,
    digits_exact k s = Some (g, rest) -> j <= k ->
    exists g' rest', digits_exact j s = Some (g', rest').
Proof.
  induction k as [|k IH]; intros s g rest j H Hj.
  - replace j with 0 by lia. simpl. eauto.
  - destruct j as [|j]; [simpl; eauto|].
    simpl in H. destruct s as [|c t]; [discriminate H|].
    destruct (is_digit c) eqn:Hc; [|discriminate H].
    destruct (digits_exact k t) as [[g0 rest0]|] eqn:E; [|discriminate H].
    destruct (IH t g0 rest0 j E) as (g' & rest' & E'); [lia|].
    simpl. rewrite Hc, E'. eauto.
Qed.

Lemma has_run_cons (c : ascii) (n : nat) (x : ascii) (t : str) :
  has_run c n t = true -> has_run c n (x :: t) = true.
Proof. intros H. simpl. rewrite H. apply orb_true_r. Qed.

Lemma has_run_app (c : ascii) (n : nat) (pre t : str) :
  has_run c n t = true -> has_run c n (pre ++ t) = true.
Proof.
  intros H. induction pre as [|x pre IH]; [exact H|].
  apply has_run_cons. exact IH.
Qed.

(** Where the pattern has a literal right before a group, a match shows the
    literal followed by at least the group's minimum of digits. *)
Lemma match_here_run (c : ascii) (lo hi : nat) (p2 : pattern) (p1 : pattern) :
  forall s gs,
    match_here (p1 ++ Lit c :: Grp lo hi :: p2) s = Some gs ->
    has_run c lo s = true.
Proof.
  induction p1 as [|[l h|c'] p1 IH]; intros s gs H.
  - change ([] ++ Lit c :: Grp lo hi :: p2) with (Lit c :: Grp lo hi :: p2) in H.
    cbn [match_here] in H. destruct s as [|x t]; [discriminate H|].
    destruct (Ascii.eqb c x) eqn:E; [|discriminate H].
    apply first_some_in in H as (k & Hk & H). apply counts_bounds in Hk.
    destruct (digits_exact k t) as [[g rest]|] eqn:Ed; [|discriminate H].
    destruct (digits_exact_shorter k t g rest lo Ed) as (g' & rest' & E'); [lia|].
    simpl. rewrite E, E'. reflexivity.
  - change ((Grp l h :: p1) ++ Lit c :: Grp lo hi :: p2)
      with (Grp l h :: (p1 ++ Lit c :: Grp lo hi :: p2)) in H.
    cbn [match_here] in H. apply first_some_in in H as (k & _ & H).
    destruct (digits_exact k s) as [[g rest]|] eqn:Ed; [|discriminate H].
    destruct (match_here _ rest) as [gs'|] eqn:E; [|discriminate H].
    destruct (digits_exact_sound _ _ _ _ Ed) as (-> & _ & _).
    apply has_run_app. exact (IH _ _ E).
  - change ((Lit c' :: p1) ++ Lit c :: Grp lo hi :: p2)
      with (Lit c' :: (p1 ++ Lit c :: Grp lo hi :: p2)) in H.
    cbn [match_here] in H. destruct s as [|x t]; [discriminate H|].
    destruct (Ascii.eqb c' x); [|discriminate H].
    apply has_run_cons. exact (IH _ _ H).
Qed.

Lemma search_run (c : ascii) (lo hi : nat) (p1 p2 : pattern) (s : str) (gs : list str) :
  search (p1 ++ Lit c :: Grp lo hi :: p2) s = Some gs -> has_run c lo s = true.
Proof.
  induction s as [|x t IH]; cbn [search];
    destruct (match_here _ _) as [gs'|] eqn:E; intros H;
    try discriminate H; try exact (match_here_run c lo hi p2 p1 _ _ E).
  apply has_run_cons. exact (IH H).
Qed.

Lemma has_run_digits (c : ascii) (n : nat) (g t : str) :
  is_digit c = false -> all_digits g = true ->
  has_run c n (g ++ t) = has_run c n t.
Proof.
  intros Hc. unfold all_digits. induction g as [|x g IH]; intros Hg; [reflexivity|].
  simpl in Hg. apply andb_prop in Hg as [Hx Hg]. simpl.
  destruct (Ascii.eqb c x) eqn:E.
  - apply Ascii.eqb_eq in E. subst x. congruence.
  - simpl. exact (IH Hg).
Qed.

Lemma try_slash (s y m d : str) :
  search p_iso s = None -> search p_us s = None ->
  search p_slash s = Some [y; m; d] ->
  try_patterns patterns s
  = Some (y ++ lit "-" ++ zfill 2 m ++ lit "-" ++ zfill 2 d).
Proof.
  intros H1 H2 H3. unfold patterns. cbn [try_patterns].
  rewrite H1, H2, H3. reflexivity.
Qed.

Lemma us_not_year_first (Y M D : str) :
  is_year Y -> is_md M -> is_md D ->
  search p_us (Y ++ lit "/" ++ M ++ lit "/" ++ D) = None.
Proof.
  intros [HYl HYd] [HMl HMd] [HDl HDd].
  destruct (search p_us _) as [gs|] eqn:E; [|reflexivity]. exfalso.
  apply (search_run "/"%char 4 4 [Grp 1 2; Lit "/"%char; Grp 1 2] []) in E.
  change (lit "/") with ["/"%char] in E. cbn [app] in E.
  rewrite has_run_digits in E by (assumption || reflexivity).
  cbn [has_run] in E. rewrite Ascii.eqb_refl in E.
  rewrite (digits_exact_long M ("/"%char :: D) HMd) in E by (reflexivity || lia).
  rewrite has_run_digits in E by (assumption || reflexivity).
  cbn [has_run] in E. rewrite Ascii.eqb_refl in E.
  rewrite <- (app_nil_r D) in E.
  rewrite (digits_exact_long D [] HDd) in E by (exact I || lia).
  rewrite has_run_digits in E by (assumption || reflexivity).
  discriminate E.
Qed.

Lemma normalize_slash (Y M D : str) :
  is_year Y -> is_md M -> is_md D ->
  normalize (Y ++ lit "/" ++ M ++ lit "/" ++ D)
  = Ok (Y ++ lit "-" ++ zfill 2 M ++ lit "-" ++ zfill 2 D).
Proof.
  intros HY HM HD.
  rewrite normalize_nonempty by (apply year_nonempty; exact HY).
  pose proof (us_not_year_first Y M D HY HM HD) as Hus.
  destruct HY as [HYl HYd], HM as [HMl HMd], HD as [HDl HDd].
  change (lit "/") with ["/"%char] in *. cbn [app] in *.
  rewrite clean_plain
    by (repeat apply plain_sep; auto using all_digits_plain).
  rewrite (try_slash _ Y M D); [reflexivity | | exact Hus |].
  - apply search_none_occ with (c := "-"%char).
    rewrite !occ_sep, !occ_digits by (assumption || reflexivity). simpl. lia.
  - apply search_here. unfold p_slash.
    apply match_here_grp; [assumption | lia | reflexivity |].
    rewrite match_here_lit.
    apply match_here_grp; [assumption | lia | reflexivity |].
    rewrite match_here_lit. apply match_here_last; [assumption | lia].
Qed.

(** X5: the third pattern: for a four-digit year Y and numbers M and D below
    100 written without padding, "Y/M/D" normalises to "Y-{M:02d}-{D:02d}";
    the month-first slash pattern, tried before it, does not take it. *)
Theorem normalize_year_first_slash (Y : str) (M D : nat) :
  is_year Y -> M < 100 -> D < 100 ->
  search p_us (Y ++ lit "/" ++ dec M ++ lit "/" ++ dec D) = None
  /\ normalize (Y ++ lit "/" ++ dec M ++ lit "/" ++ dec D)
     = Ok (Y ++ lit "-" ++ fmt02 M ++ lit "-" ++ fmt02 D).
Proof.
  intros HY HM HD. split.
  - apply us_not_year_first; auto using dec_md.
  - rewrite <- (zfill_dec M HM), <- (zfill_dec D HD).
    apply normalize_slash; auto using dec_md.
Qed.

Lemma normalize_year_first_slash_witness :
  search p_us (lit "2001/3/4") = None
  /\ normalize (lit "2001/3/4") = Ok (lit "2001-03-04").
Proof.
  apply (normalize_year_first_slash (lit "2001") 3 4).
  - split; reflexivity.
  - lia.
  - lia.
Defined.

(** ** Filler words are whole words *)

(** Inside a run of word characters an alternative is followed by a word
    boundary exactly when it is the whole run, case aside. *)
Lemma lit_ci_word (w : str) :
  forall a s prev,
    forallb is_word s = true ->
    match lit_ci (a :: w) s prev with
    | Some (last, rest) => at_boundary last rest = str_eqb (map lower s) (a :: w)
    | None => str_eqb (map lower s) (a :: w) = false
    end.
Proof.
  induction w as [|b w IH]; intros a s prev Hs.
  - destruct s as [|c t]; [reflexivity|].
    simpl in Hs. apply andb_prop in Hs as [Hc Ht].
    cbn [lit_ci map str_eqb]. rewrite (Ascii.eqb_sym (lower c) a).
    destruct (Ascii.eqb a (lower c)); [|reflexivity].
    unfold at_boundary. cbn [wordp]. rewrite Hc.
    destruct t as [|c' t']; [reflexivity|].
    simpl in Ht. apply andb_prop in Ht as [Hc' _]. simpl. rewrite Hc'. reflexivity.
  - destruct s as [|c t]; [reflexivity|].
    simpl in Hs. apply andb_prop in Hs as [Hc Ht].
    cbn [lit_ci map]. change (str_eqb (lower c :: map lower t) (a :: b :: w))
      with (Ascii.eqb (lower c) a && str_eqb (map lower t) (b :: w)).
    rewrite (Ascii.eqb_sym (lower c) a).
    destruct (Ascii.eqb a (lower c)); [|reflexivity].
    exact (IH b t (Some c) Ht).
Qed.

Lemma str_eqb_length (a b : str) : str_eqb a b = true -> length a = length b.
Proof. intros H. apply str_eqb_eq in H. rewrite H. reflexivity. Qed.

Lemma first_alt_word (ws : list str) (prev : option ascii) (s : str) :
  forallb (fun w => negb (length w =? 0)) ws = true ->
  forallb is_word s = true ->
  first_alt ws prev s
  = if existsb (str_eqb (map lower s)) ws then Some (length s) else None.
Proof.
  intros Hws Hs. induction ws as [|w ws IH]; [reflexivity|].
  simpl in Hws. apply andb_prop in Hws as [Hw Hws].
  destruct w as [|a w]; [discriminate Hw|].
  cbn [first_alt existsb]. pose proof (lit_ci_word w a s prev Hs) as H.
  destruct (lit_ci (a :: w) s prev) as [[last rest]|].
  - rewrite H. destruct (str_eqb (map lower s) (a :: w)) eqn:E.
    + apply str_eqb_length in E. rewrite length_map in E. rewrite E. reflexivity.
    + exact (IH Hws).
  - rewrite H. exact (IH Hws).
Qed.

Lemma sub_scan_skip_all (t : str) :
  forall prev, sub_scan prev (length t) t = [].
Proof. induction t as [|c t IH]; intros prev; [reflexivity|]. simpl. apply IH. Qed.

Lemma sub_scan_inside_word (t : str) :
  forall c, is_word c = true -> forallb is_word t = true ->
            sub_scan (Some c) 0 t = t.
Proof.
  induction t as [|x t IH]; intros c Hc Ht; [reflexivity|].
  simpl in Ht. apply andb_prop in Ht as [Hx Ht].
  cbn [sub_scan]. unfold match_filler, at_boundary. cbn [wordp hd_error].
  rewrite Hc, Hx. cbn [xorb]. rewrite (IH x Hx Ht). reflexivity.
Qed.

(** X6: for texts of code points below 256 (the characters of [str]; there
    the case-insensitive match of a letter of a filler word is that letter in
    upper or lower case): on a text that is one run of word characters
    (letters, digits, underscore) the substitution deletes the text when it
    is one of the six filler words in any mix of upper and lower case, and
    leaves it as it is otherwise: a filler inside or at the edge of a longer
    word stays. *)
Theorem sub_fillers_single_word (s : str) :
  forallb is_word s = true ->
  sub_fillers s
  = if existsb (str_eqb (map lower s)) fillers then [] else s.
Proof.
  intros Hs. destruct s as [|c t]; [reflexivity|].
  pose proof Hs as Hs'. simpl in Hs'. apply andb_prop in Hs' as [Hc Ht].
  unfold sub_fillers. cbn [sub_scan]. unfold match_filler, at_boundary.
  cbn [wordp hd_error]. rewrite Hc. cbn [xorb].
  rewrite (first_alt_word fillers None (c :: t) eq_refl Hs).
  destruct (existsb _ fillers).
  - cbn [length pred]. apply sub_scan_skip_all.
  - rewrite (sub_scan_inside_word t c Hc Ht). reflexivity.
Qed.

Lemma sub_fillers_single_word_witness :
  sub_fillers (lit "FoundeD") = [].
Proof.
  apply (sub_fillers_single_word (lit "FoundeD")). reflexivity.
Defined.

Example sub_fillers_inside_word :
  sub_fillers (lit "Indiana_on9") = lit "Indiana_on9".
Proof. reflexivity. Qed.

(** ** What reaches the file *)

Section Writing.

Context {A : Type}.
Variable mk : A -> result Line.
Variable fs : FileSys.
Variable filename : str.

Lemma write_rows_prefix (xs : list A) :
  forall i written,
  exists n rows,
    fst (write_rows mk fs filename i xs written) = written ++ rows
    /\ rows_of mk (firstn n xs) rows
    /\ (snd (write_rows mk fs filename i xs written) = Ok tt -> n = length xs).
Proof.
  induction xs as [|x xs IH]; intros i written; simpl.
  - exists 0, []. rewrite app_nil_r. repeat split. constructor.
  - destruct (mk x) as [ln|e] eqn:Ex.
    + destruct (fs_write fs filename i) as [e|].
      * exists 0, []. rewrite app_nil_r. simpl.
        repeat split; [constructor | discriminate].
      * destruct (IH (S i) (written ++ [ln])) as (n & rows & Hw & Hrows & Hok).
        exists (S n), (ln :: rows). rewrite Hw, <- app_assoc. simpl.
        repeat split; [constructor; assumption | intros H; rewrite (Hok H); reflexivity].
    + exists 0, []. rewrite app_nil_r. simpl.
      repeat split; [constructor | discriminate].
Qed.

Lemma with_csv_prefix (xs : list A) :
  exists n rows,
    (fst (with_csv mk fs filename xs) = []
     \/ fst (with_csv mk fs filename xs) = Header fieldnames :: rows)
    /\ rows_of mk (firstn n xs) rows
    /\ (snd (with_csv mk fs filename xs) = Ok tt ->
        n = length xs
        /\ fst (with_csv mk fs filename xs) = Header fieldnames :: rows).
Proof.
  unfold with_csv. destruct (fs_open fs filename) as [e|].
  { exists 0, []. simpl. repeat split; try discriminate; auto. constructor. }
  destruct (fs_write fs filename 0) as [e|].
  { exists 0, []. destruct (fs_close fs filename); simpl;
      repeat split; try discriminate; auto; constructor. }
  destruct (write_rows_prefix xs 1 [Header fieldnames]) as (n & rows & Hw & Hrows & Hok).
  destruct (write_rows mk fs filename 1 xs [Header fieldnames]) as [written r].
  simpl in Hw, Hok. subst written. exists n, rows.
  destruct (fs_close fs filename); simpl.
  - repeat split; try discriminate; auto.
  - repeat split; auto.
Qed.

Lemma write_rows_no_fault (xs : list A) (rows : list Line) :
  (forall i, fs_write fs filename i = None) ->
  rows_of mk xs rows ->
  forall i written,
    write_rows mk fs filename i xs written = (written ++ rows, Ok tt).
Proof.
  intros Hw. induction 1 as [|x ln xs rows Hx _ IH]; intros i written; simpl.
  - rewrite app_nil_r. reflexivity.
  - rewrite Hx, Hw, IH, <- app_assoc. reflexivity.
Qed.

Lemma with_csv_no_fault (xs : list A) (rows : list Line) :
  no_fault fs filename -> rows_of mk xs rows ->
  with_csv mk fs filename xs = (Header fieldnames :: rows, Ok tt).
Proof.
  intros (Ho & Hw & Hc) Hrows. unfold with_csv.
  rewrite Ho, Hw, (write_rows_no_fault xs rows Hw Hrows), Hc. reflexivity.
Qed.

End Writing.

Lemma status_differ (a b : str) :
  lit "Error saving to CSV: " ++ a <> lit "Successfully saved " ++ b.
Proof. discriminate. Qed.

(** X7: when [save_to_csv] answers with its success message, the file holds
    the header followed by exactly one row per element of the data, in
    order, each the row built from that element. *)
Theorem save_to_csv_success_complete
  (fs : FileSys) (data : list PyVal) (filename : str) :
  snd (save_to_csv fs data filename)
  = Ok (lit "Successfully saved " ++ dec (length data)
        ++ lit " companies to " ++ filename) ->
  exists rows,
    fst (save_to_csv fs data filename) = Header fieldnames :: rows
    /\ rows_of dict_row data rows.
Proof.
  unfold save_to_csv.
  destruct (with_csv_prefix dict_row fs filename data) as (n & rows & _ & Hrows & Hok).
  destruct (with_csv dict_row fs filename data) as [written [[]|e]];
    cbn [fst snd] in *.
  - intros _. destruct (Hok eq_refl) as [-> ->]. rewrite firstn_all in Hrows.
    exists rows. split; [reflexivity | exact Hrows].
  - intros H. exfalso. apply (status_differ (exn_msg e)
      (dec (length data) ++ lit " companies to " ++ filename)).
    congruence.
Qed.

Lemma save_to_csv_success_complete_witness :
  exists rows,
    fst (save_to_csv fs_ok [acme_dict] default_filename) = Header fieldnames :: rows
    /\ rows_of dict_row [acme_dict] rows.
Proof.
  apply (save_to_csv_success_complete fs_ok [acme_dict] default_filename).
  reflexivity.
Defined.

(** X8: with no failing file operation and every element building its row,
    [save_to_csv] writes the header and the rows in order and answers with
    the success message carrying the number of elements. *)
Theorem save_to_csv_writes_all
  (fs : FileSys) (data : list PyVal) (rows : list Line) (filename : str) :
  no_fault fs filename -> rows_of dict_row data rows ->
  save_to_csv fs data filename
  = (Header fieldnames :: rows,
     Ok (lit "Successfully saved " ++ dec (length data)
         ++ lit " companies to " ++ filename)).
Proof.
  intros Hfs Hrows. unfold save_to_csv.
  rewrite (with_csv_no_fault dict_row fs filename data rows Hfs Hrows).
  reflexivity.
Qed.

Lemma save_to_csv_writes_all_witness :
  save_to_csv fs_ok [acme_dict; acme_dict] default_filename
  = ([Header fieldnames;
      Row (VStr (lit "Acme Corp")) (VStr (lit "founded in 1999")) (lit "Jane Doe");
      Row (VStr (lit "Acme Corp")) (VStr (lit "founded in 1999")) (lit "Jane Doe")],
     Ok (lit "Successfully saved 2 companies to company_info.csv")).
Proof.
  apply (save_to_csv_writes_all fs_ok [acme_dict; acme_dict]
           [Row (VStr (lit "Acme Corp")) (VStr (lit "founded in 1999")) (lit "Jane Doe");
            Row (VStr (lit "Acme Corp")) (VStr (lit "founded in 1999")) (lit "Jane Doe")]
           default_filename).
  - repeat split.
  - repeat constructor.
Defined.

(** X9: whatever the file system does and whatever the records hold, what
    [_save_companies_to_csv] has put in the file is nothing at all, or the
    header followed by the rows of the first records, in order and without
    gaps; when it returns without raising, that is a row for every record. *)
Theorem save_companies_writes_prefix
  (fs : FileSys) (companies : list CompanyInfo) (filename : str) :
  exists n rows,
    (fst (_save_companies_to_csv fs companies filename) = []
     \/ fst (_save_companies_to_csv fs companies filename) = Header fieldnames :: rows)
    /\ rows_of info_row (firstn n companies) rows
    /\ (snd (_save_companies_to_csv fs companies filename) = Ok tt ->
        n = length companies
        /\ fst (_save_companies_to_csv fs companies filename)
           = Header fieldnames :: rows).
Proof. exact (with_csv_prefix info_row fs filename companies). Qed.

(** X10: when the run returns, the CSV file holds the header and one row per
    returned record, in the order of the records. *)
Theorem run_writes_what_it_returns
  (svc : Service) (fs : FileSys) (text : str) (recs : list CompanyInfo) :
  process_text_direct svc fs text = Ok recs ->
  recs = all_companies (run_state svc text)
  /\ exists rows,
       fst (_save_companies_to_csv fs recs default_filename)
       = Header fieldnames :: rows
       /\ rows_of info_row recs rows.
Proof.
  unfold process_text_direct. cbv zeta.
  destruct (with_csv_prefix info_row fs default_filename
              (all_companies (run_state svc text)))
    as (n & rows & _ & Hrows & Hok).
  unfold _save_companies_to_csv in *.
  destruct (snd (with_csv info_row fs default_filename _)) as [[]|e] eqn:E;
    simpl; [|discriminate].
  intros [= <-]. destruct (Hok eq_refl) as [-> Hfile].
  rewrite firstn_all in Hrows. split; [reflexivity|].
  exists rows. split; assumption.
Qed.

Lemma run_writes_what_it_returns_witness :
  [acme_record] = all_companies (run_state svc_acme acme_text)
  /\ exists rows,
       fst (_save_companies_to_csv fs_ok [acme_record] default_filename)
       = Header fieldnames :: rows
       /\ rows_of info_row [acme_record] rows.
Proof.
  apply (run_writes_what_it_returns svc_acme fs_ok acme_text [acme_record]).
  reflexivity.
Defined.

(** ** The records of a paragraph *)

Lemma for_companies_first_failure (items : list PyVal) :
  forall all,
  exists n recs,
    fst (for_companies items all) = all ++ recs
    /\ built (firstn n items) recs
    /\ match snd (for_companies items all) with
       | None => n = length items
       | Some e => exists x, nth_error items n = Some x /\ build_company x = Raise e
       end.
Proof.
  induction items as [|x items IH]; intros all; simpl.
  - exists 0, []. rewrite app_nil_r. repeat split. constructor.
  - destruct (build_company x) as [c|e] eqn:Ex.
    + destruct (IH (all ++ [c])) as (n & recs & Hf & Hb & Hs).
      exists (S n), (c :: recs). rewrite Hf, <- app_assoc. simpl.
      repeat split; [constructor; assumption|].
      destruct (snd (for_companies items (all ++ [c]))); [exact Hs | lia].
    + exists 0, []. rewrite app_nil_r. simpl. repeat split; [constructor|].
      exists x. split; [reflexivity | exact Ex].
Qed.

(** X11: for a result whose [companies] is a list, the paragraph adds the
    records of the elements in front of the first one that raises, in
    order, and nothing after it; the error caught is the one of that
    element, and there is none exactly when every element gave its
    record. *)
Theorem paragraph_keeps_leading_records
  (answer : PyVal) (items : list PyVal) (all : list CompanyInfo) :
  dict_with (lit "companies") answer = Some (VList items) ->
  exists n recs,
    fst (handle_result answer all) = all ++ recs
    /\ built (firstn n items) recs
    /\ match snd (handle_result answer all) with
       | None => n = length items
       | Some e => exists x, nth_error items n = Some x /\ build_company x = Raise e
       end.
Proof.
  intros H. unfold handle_result. rewrite H. simpl.
  apply for_companies_first_failure.
Qed.

Lemma paragraph_keeps_leading_records_witness :
  exists n recs,
    fst (handle_result mixed_result []) = [] ++ recs
    /\ built (firstn n [VInt 5; acme_dict]) recs
    /\ match snd (handle_result mixed_result []) with
       | None => n = length [VInt 5; acme_dict]
       | Some e =>
           exists x, nth_error [VInt 5; acme_dict] n = Some x
                     /\ build_company x = Raise e
       end.
Proof.
  apply (paragraph_keeps_leading_records mixed_result [VInt 5; acme_dict] []).
  reflexivity.
Defined.

(** ** The dates of the records *)

Lemma normalize_date_stable (v : PyVal) (d : str) :
  _normalize_date v = Ok d -> normalize d = Ok d.
Proof.
  intros H. destruct (truthy v) eqn:Ht.
  - destruct v; unfold _normalize_date in H; rewrite Ht in H; simpl in H;
      try discriminate H.
    apply (normalize_stable s). unfold normalize, _normalize_date.
    rewrite Ht. exact H.
  - unfold _normalize_date in H. rewrite Ht in H. inversion H. reflexivity.
Qed.

Lemma build_company_stable (x : PyVal) (c : CompanyInfo) :
  build_company x = Ok c -> normalize (founding_date c) = Ok (founding_date c).
Proof.
  unfold build_company. intros H.
  destruct (get x (lit "company_name") (VStr [])) as [name|e]; [|discriminate H].
  destruct (get x (lit "founding_date") (VStr [])) as [raw|e]; [|discriminate H].
  cbn [bind] in H.
  destruct (_normalize_date raw) as [d|e] eqn:Ed; [|discriminate H].
  destruct (get x (lit "founders") (VList [])) as [fs|e]; [|discriminate H].
  inversion H; subst. simpl. exact (normalize_date_stable raw d Ed).
Qed.

Lemma for_companies_forall (P : CompanyInfo -> Prop) :
  (forall x c, build_company x = Ok c -> P c) ->
  forall items all,
    Forall P all -> Forall P (fst (for_companies items all)).
Proof.
  intros HP. induction items as [|x items IH]; intros all Hall; simpl; [exact Hall|].
  destruct (build_company x) as [c|e] eqn:Ex; [|exact Hall].
  apply IH. apply Forall_app. split; [exact Hall|].
  constructor; [exact (HP x c Ex) | constructor].
Qed.

Lemma handle_result_forall (P : CompanyInfo -> Prop) :
  (forall x c, build_company x = Ok c -> P c) ->
  forall answer all,
    Forall P all -> Forall P (fst (handle_result answer all)).
Proof.
  intros HP answer all Hall. unfold handle_result.
  destruct (dict_with _ answer) as [companies|]; [|exact Hall].
  destruct (iterate companies) as [items|e]; [|exact Hall].
  exact (for_companies_forall P HP items all Hall).
Qed.

Lemma for_paragraphs_forall (P : CompanyInfo -> Prop) (svc : Service) :
  (forall x c, build_company x = Ok c -> P c) ->
  forall ps k st,
    Forall P (all_companies st) ->
    Forall P (all_companies (for_paragraphs svc k ps st)).
Proof.
  intros HP. induction ps as [|p ps IH]; intros k st Hst; [exact Hst|].
  simpl. apply IH. unfold paragraph_step.
  destruct (svc k p) as [answer|e].
  - pose proof (handle_result_forall P HP answer (all_companies st) Hst) as H.
    destruct (handle_result answer (all_companies st)) as [all [e|]]; exact H.
  - exact Hst.
Qed.

(** X12: every record the loop produces, for any text and any behaviour of
    the service, has a [founding_date] that normalising again leaves as it
    is. *)
Theorem run_dates_stable (svc : Service) (text : str) :
  Forall (fun c => normalize (founding_date c) = Ok (founding_date c))
         (all_companies (run_state svc text)).
Proof.
  unfold run_state. apply for_paragraphs_forall.
  - exact build_company_stable.
  - constructor.
Qed.

(** ** Paragraphs *)

Lemma pair_induction (P : str -> Prop) :
  P [] -> (forall c, P [c]) ->
  (forall c c' t, P t -> P (c' :: t) -> P (c :: c' :: t)) ->
  forall s, P s.
Proof.
  intros H0 H1 H2 s. enough (H : P s /\ forall c, P (c :: s)) by exact (proj1 H).
  induction s as [|x s [IHs IHc]]; split; auto.
Qed.

Lemma lstrip_spaces (s : str) : forallb is_space s = true -> lstrip s = [].
Proof.
  induction s as [|c t IH]; [reflexivity|]. simpl. intros H.
  apply andb_prop in H as [Hc Ht]. rewrite Hc. exact (IH Ht).
Qed.

Lemma strip_spaces (s : str) : forallb is_space s = true -> strip s = [].
Proof. intros H. unfold strip. rewrite (lstrip_spaces s H). reflexivity. Qed.

Lemma split_blank_spaces (text : str) :
  forall cur,
    forallb is_space cur = true -> forallb is_space text = true ->
    Forall (fun p => forallb is_space p = true) (split_blank cur text).
Proof.
  induction text as [| c | c c' t IHt IHc] using pair_induction;
    intros cur Hcur Htext.
  - simpl. constructor; [|constructor]. apply forallb_rev. exact Hcur.
  - cbn [split_blank]. constructor; [|constructor]. apply forallb_rev. simpl.
    simpl in Htext. apply andb_prop in Htext as [Hc _]. rewrite Hc. exact Hcur.
  - simpl in Htext. apply andb_prop in Htext as [Hc Ht].
    pose proof Ht as Ht'. simpl in Ht'. apply andb_prop in Ht' as [Hc' Ht'].
    cbn [split_blank]. destruct (Ascii.eqb c LF && Ascii.eqb c' LF).
    + constructor; [apply forallb_rev; exact Hcur|]. apply IHt; [reflexivity | exact Ht'].
    + apply IHc; [simpl; rewrite Hc; exact Hcur | exact Ht].
Qed.

Lemma paragraphs_spaces (text : str) :
  forallb is_space text = true -> paragraphs text = [].
Proof.
  intros H. unfold paragraphs.
  pose proof (split_blank_spaces text [] eq_refl H) as Hall.
  induction Hall as [|p ps Hp _ IH]; [reflexivity|].
  simpl. rewrite (strip_spaces p Hp). exact IH.
Qed.

(** X13: a text of whitespace only (the empty text included) has no
    paragraph: the service is never consulted, nothing is printed, and with
    no failing file operation the run returns no record and leaves a file
    holding the header alone. *)
Theorem blank_text_gives_nothing (svc : Service) (fs : FileSys) (text : str) :
  forallb is_space text = true -> no_fault fs default_filename ->
  paragraphs text = []
  /\ run_state svc text = mkState [] []
  /\ process_text_direct svc fs text = Ok []
  /\ fst (_save_companies_to_csv fs [] default_filename) = [Header fieldnames].
Proof.
  intros Htext Hfs.
  pose proof (paragraphs_spaces text Htext) as Hps.
  assert (Hst : run_state svc text = mkState [] []).
  { unfold run_state. rewrite Hps. reflexivity. }
  assert (Hsave : _save_companies_to_csv fs [] default_filename
                  = ([Header fieldnames], Ok tt)).
  { exact (with_csv_no_fault info_row fs default_filename [] [] Hfs
             (Forall2_nil _)). }
  split; [exact Hps|]. split; [exact Hst|]. split.
  - unfold process_text_direct. cbv zeta. rewrite Hst. cbn [all_companies].
    rewrite Hsave. reflexivity.
  - rewrite Hsave. reflexivity.
Qed.

Lemma blank_text_gives_nothing_witness :
  process_text_direct svc_acme fs_ok [" "%char; LF; LF; " "%char; LF] = Ok [].
Proof.
  apply (blank_text_gives_nothing svc_acme fs_ok [" "%char; LF; LF; " "%char; LF]).
  - reflexivity.
  - repeat split.
Defined.

Lemma lstrip_snoc (l : str) (c : ascii) :
  lstrip (l ++ [c])
  = match lstrip l with
    | [] => if is_space c then [] else [c]
    | r => r ++ [c]
    end.
Proof.
  induction l as [|x l IH]; simpl.
  - destruct (is_space c); reflexivity.
  - destruct (is_space x); [exact IH | reflexivity].
Qed.

Lemma rstrip_rec_eq (s : str) : rstrip s = rstrip_rec s.
Proof.
  unfold rstrip. induction s as [|c t IH]; [reflexivity|].
  simpl. rewrite lstrip_snoc, <- IH.
  destruct (lstrip (rev t)) as [|x r]; simpl.
  - destruct (is_space c); reflexivity.
  - rewrite rev_app_distr. simpl.
    destruct (rev r ++ [x]) eqn:E; [|reflexivity].
    apply app_eq_nil in E as [_ E]. discriminate E.
Qed.

Lemma rstrip_rec_idem (s : str) : rstrip_rec (rstrip_rec s) = rstrip_rec s.
Proof.
  induction s as [|c t IH]; [reflexivity|]. simpl.
  destruct (rstrip_rec t) as [|x r] eqn:E.
  - destruct (is_space c) eqn:Hc; [reflexivity|]. simpl. rewrite Hc. reflexivity.
  - change (rstrip_rec (c :: x :: r))
      with (match rstrip_rec (x :: r) with
            | [] => if is_space c then [] else [c]
            | r' => c :: r'
            end).
    rewrite IH. reflexivity.
Qed.

Lemma lstrip_fixed (s : str) :
  lstrip s = s <-> match s with [] => True | c :: _ => is_space c = false end.
Proof.
  destruct s as [|c t]; [tauto|]. simpl. destruct (is_space c) eqn:E.
  - split; [|discriminate]. intros H. exfalso.
    pose proof (lstrip_length t) as Hl. rewrite H in Hl. simpl in Hl. lia.
  - tauto.
Qed.

Lemma lstrip_idem (s : str) : lstrip (lstrip s) = lstrip s.
Proof.
  induction s as [|c t IH]; [reflexivity|]. simpl.
  destruct (is_space c) eqn:E; [exact IH|]. simpl. rewrite E. reflexivity.
Qed.

Lemma lstrip_rstrip_rec (s : str) :
  lstrip s = s -> lstrip (rstrip_rec s) = rstrip_rec s.
Proof.
  intros H. apply lstrip_fixed in H. apply lstrip_fixed.
  destruct s as [|c t]; [exact I|]. simpl.
  destruct (rstrip_rec t); [rewrite H|]; exact H.
Qed.

Lemma strip_idem (s : str) : strip (strip s) = strip s.
Proof.
  unfold strip. rewrite !rstrip_rec_eq.
  rewrite (lstrip_rstrip_rec (lstrip s) (lstrip_idem s)).
  apply rstrip_rec_idem.
Qed.

(** X14: every paragraph handed to the service is non-empty and already
    trimmed: stripping it again changes nothing, so it neither starts nor
    ends with whitespace. *)
Theorem paragraphs_trimmed (text : str) :
  Forall (fun p => p <> [] /\ strip p = p
                   /\ lstrip p = p /\ lstrip (rev p) = rev p)
         (paragraphs text).
Proof.
  unfold paragraphs. induction (split_blank [] text) as [|q qs IH]; [constructor|].
  simpl. destruct (strip q) as [|c t] eqn:E; [exact IH|].
  simpl. constructor; [|exact IH]. rewrite E.
  assert (Hs : strip (c :: t) = c :: t) by (rewrite <- E; apply strip_idem).
  assert (Hl : lstrip (c :: t) = c :: t).
  { rewrite <- E. unfold strip. rewrite rstrip_rec_eq.
    apply lstrip_rstrip_rec. apply lstrip_idem. }
  split; [discriminate|]. split; [exact Hs|]. split; [exact Hl|].
  unfold strip in Hs. rewrite Hl in Hs. unfold rstrip in Hs.
  apply (f_equal (@rev ascii)) in Hs. rewrite rev_involutive in Hs. exact Hs.
Qed.

(** ** The extraction tool *)

Lemma str_eqb_refl (a : str) : str_eqb a a = true.
Proof. induction a as [|x a IH]; [reflexivity|]. simpl. rewrite Ascii.eqb_refl. exact IH. Qed.

Lemma str_eqb_neq (a b : str) : a <> b -> str_eqb a b = false.
Proof.
  intros H. destruct (str_eqb a b) eqn:E; [|reflexivity].
  exfalso. exact (H (str_eqb_eq a b E)).
Qed.

Lemma lookup_update_same (k : str) (x : PyVal) (kv : list (str * PyVal)) :
  lookup k (update k x kv) = Some x.
Proof.
  induction kv as [|[k' v] kv IH]; simpl.
  - rewrite str_eqb_refl. reflexivity.
  - destruct (str_eqb k k') eqn:E; simpl; rewrite E; [reflexivity | exact IH].
Qed.

Lemma lookup_update_other (k k' : str) (x : PyVal) (kv : list (str * PyVal)) :
  k' <> k -> lookup k' (update k x kv) = lookup k' kv.
Proof.
  intros Hne. induction kv as [|[ke v] kv IH]; simpl.
  - rewrite (str_eqb_neq k' k Hne). reflexivity.
  - destruct (str_eqb k ke) eqn:E; simpl.
    + apply str_eqb_eq in E. subst ke. rewrite (str_eqb_neq k' k Hne). reflexivity.
    + rewrite IH. reflexivity.
Qed.

Lemma update_keys (k : str) (x : PyVal) (kv : list (str * PyVal)) :
  lookup k kv <> None -> map fst (update k x kv) = map fst kv.
Proof.
  induction kv as [|[ke v] kv IH]; simpl; [intros H; contradiction|].
  destruct (str_eqb k ke) eqn:E; simpl; [reflexivity|].
  intros H. rewrite (IH H). reflexivity.
Qed.

(** X15: normalising an entry in place touches its [founding_date] and
    nothing else: for a dict that has the key, with a value the normaliser
    accepts, the entry afterwards has the same keys in the same order, the
    normalised string under [founding_date], and every other value as
    before. *)
Theorem normalize_company_only_date
  (kv : list (str * PyVal)) (raw : PyVal) (date : str) :
  lookup (lit "founding_date") kv = Some raw ->
  _normalize_date raw = Ok date ->
  exists kv',
    normalize_company (VDict kv) = Ok (VDict kv')
    /\ map fst kv' = map fst kv
    /\ lookup (lit "founding_date") kv' = Some (VStr date)
    /\ (forall k, k <> lit "founding_date" -> lookup k kv' = lookup k kv).
Proof.
  intros Hraw Hdate. exists (update (lit "founding_date") (VStr date) kv).
  split; [|split; [|split]].
  - unfold normalize_company, has_member, getitem, setitem.
    rewrite Hraw. cbn [bind]. rewrite Hdate. reflexivity.
  - apply update_keys. rewrite Hraw. discriminate.
  - apply lookup_update_same.
  - intros k Hk. apply lookup_update_other. exact Hk.
Qed.

Lemma normalize_company_only_date_witness :
  exists kv',
    normalize_company acme_dict = Ok (VDict kv')
    /\ map fst kv' = map lit ["company_name"; "founding_date"; "founders"]%string
    /\ lookup (lit "founding_date") kv' = Some (VStr (lit "1999-01-01"))
    /\ (forall k, k <> lit "founding_date" ->
                  lookup k kv'
                  = lookup k [(lit "company_name", VStr (lit "Acme Corp"));
                              (lit "founding_date", VStr (lit "founded in 1999"));
                              (lit "founders", VList [VStr (lit "Jane Doe")])]).
Proof.
  apply (normalize_company_only_date
           [(lit "company_name", VStr (lit "Acme Corp"));
            (lit "founding_date", VStr (lit "founded in 1999"));
            (lit "founders", VList [VStr (lit "Jane Doe")])]
           (VStr (lit "founded in 1999")) (lit "1999-01-01")).
  - reflexivity.
  - reflexivity.
Defined.

Lemma normalize_company_same_record (x x' : PyVal) :
  normalize_company x = Ok x' -> build_company x' = build_company x.
Proof.
  unfold normalize_company. intros H.
  destruct x; cbn [has_member bind] in H; try discriminate H.
  - destruct (contains (lit "founding_date") s);
      cbn [getitem bind] in H; [discriminate H|].
    inversion H. reflexivity.
  - destruct (existsb _ l); cbn [getitem bind] in H; [discriminate H|].
    inversion H. reflexivity.
  - destruct (lookup (lit "founding_date") kv) as [raw|] eqn:Hraw.
    + cbn [getitem bind] in H. rewrite Hraw in H. cbn [bind] in H.
      destruct (_normalize_date raw) as [date|e] eqn:Hdate;
        cbn [bind setitem] in H; [|discriminate H].
      inversion H; subst. unfold build_company, get.
      rewrite lookup_update_same.
      rewrite !lookup_update_other by discriminate.
      rewrite Hraw.
      destruct (lookup (lit "company_name") kv); cbn [bind];
        rewrite Hdate;
        change (_normalize_date (VStr date)) with (normalize date);
        rewrite (normalize_date_stable raw date Hdate); reflexivity.
    + inversion H. reflexivity.
Qed.

Lemma normalize_all_same_records (items : list PyVal) :
  forall items' all,
    normalize_all items = Ok items' ->
    for_companies items' all = for_companies items all.
Proof.
  induction items as [|x items IH]; intros items' all H; simpl in H.
  - inversion H. reflexivity.
  - destruct (normalize_company x) as [x'|e] eqn:Ex; simpl in H; [|discriminate H].
    destruct (normalize_all items) as [rest'|e] eqn:Er; simpl in H; [|discriminate H].
    inversion H; subst. simpl.
    rewrite (normalize_company_same_record x x' Ex).
    destruct (build_company x); [apply IH|]; reflexivity.
Qed.

Lemma normalize_dates_same_records (answer answer' : PyVal) (all : list CompanyInfo) :
  normalize_dates answer = Ok answer' ->
  handle_result answer' all = handle_result answer all.
Proof.
  unfold normalize_dates. intros H.
  destruct answer; try (inversion H; reflexivity).
  destruct (lookup (lit "companies") kv) as [companies|] eqn:Hc;
    [|inversion H; reflexivity].
  destruct (iterate companies) as [items|e] eqn:Hi; simpl in H; [|discriminate H].
  destruct (normalize_all items) as [items'|e] eqn:Hn; simpl in H; [|discriminate H].
  destruct companies; try (inversion H; reflexivity).
  inversion H; subst. simpl in Hi. inversion Hi; subst.
  unfold handle_result, dict_with. rewrite lookup_update_same, Hc. simpl.
  exact (normalize_all_same_records items items' all Hn).
Qed.

(** X16: the tool's normalisation does not change what the pipeline reads:
    when the tool returns the service's answer with its dates normalised,
    the records [process_text_direct] builds from the tool's output are
    those it builds from the answer itself. *)
Theorem tool_output_same_records
  (svc : Service) (k : nat) (paragraph : str) (answer answer' : PyVal)
  (all : list CompanyInfo) :
  svc k paragraph = Ok answer ->
  normalize_dates answer = Ok answer' ->
  extract_companies_from_paragraph svc k paragraph = (answer', [])
  /\ handle_result answer' all = handle_result answer all.
Proof.
  intros Hsvc Hn. split.
  - unfold extract_companies_from_paragraph. rewrite Hsvc. cbn [bind].
    rewrite Hn. reflexivity.
  - exact (normalize_dates_same_records answer answer' all Hn).
Qed.

Lemma tool_output_same_records_witness :
  extract_companies_from_paragraph svc_acme 0 acme_text
  = (VDict [(lit "companies",
             VList [VDict [(lit "company_name", VStr (lit "Acme Corp"));
                           (lit "founding_date", VStr (lit "1999-01-01"));
                           (lit "founders", VList [VStr (lit "Jane Doe")])]])],
     [])
  /\ handle_result
       (VDict [(lit "companies",
                VList [VDict [(lit "company_name", VStr (lit "Acme Corp"));
                              (lit "founding_date", VStr (lit "1999-01-01"));
                              (lit "founders", VList [VStr (lit "Jane Doe")])]])])
       []
     = handle_result acme_result [].
Proof.
  apply (tool_output_same_records svc_acme 0 acme_text acme_result).
  - reflexivity.
  - reflexivity.
Defined.

Lemma normalize_all_raises (items : list PyVal) (x : PyVal) (e : exn) :
  In x items -> normalize_company x = Raise e ->
  exists e', normalize_all items = Raise e'.
Proof.
  induction items as [|y items IH]; intros Hin Hx; [contradiction|].
  simpl. destruct Hin as [->|Hin].
  - rewrite Hx. exists e. reflexivity.
  - destruct (normalize_company y) as [y'|e1]; [|exists e1; reflexivity].
    destruct (IH Hin Hx) as [e' He']. simpl. rewrite He'. exists e'. reflexivity.
Qed.

(** X17: the tool is all or nothing: when one element of the [companies]
    list makes the loop raise, wherever it stands, the tool prints one line
    and returns the result with an empty list, dropping the entries before
    it as well. *)
Theorem tool_drops_whole_answer
  (svc : Service) (k : nat) (paragraph : str)
  (answer : PyVal) (items : list PyVal) (x : PyVal) (e : exn) :
  svc k paragraph = Ok answer ->
  dict_with (lit "companies") answer = Some (VList items) ->
  In x items -> normalize_company x = Raise e ->
  exists e',
    extract_companies_from_paragraph svc k paragraph
    = (empty_result, [lit "Error extracting from paragraph: " ++ exn_msg e'])
    /\ handle_result empty_result [] = ([], None).
Proof.
  intros Hsvc Hc Hin Hx.
  destruct (normalize_all_raises items x e Hin Hx) as [e' He'].
  exists e'. split; [|reflexivity].
  unfold extract_companies_from_paragraph. rewrite Hsvc. cbn [bind].
  unfold normalize_dates. destruct answer; try discriminate Hc.
  cbn [dict_with] in Hc. rewrite Hc. cbn [iterate bind]. rewrite He'. reflexivity.
Qed.

Lemma tool_drops_whole_answer_witness :
  exists e',
    extract_companies_from_paragraph
      (fun _ _ => Ok (VDict [(lit "companies", VList [acme_dict; VInt 5])]))
      0 acme_text
    = (empty_result, [lit "Error extracting from paragraph: " ++ exn_msg e'])
    /\ handle_result empty_result [] = ([], None).
Proof.
  apply (tool_drops_whole_answer
           (fun _ _ => Ok (VDict [(lit "companies", VList [acme_dict; VInt 5])]))
           0 acme_text
           (VDict [(lit "companies", VList [acme_dict; VInt 5])])
           [acme_dict; VInt 5] (VInt 5)
           (TypeError (lit "argument is not iterable"))).
  - reflexivity.
  - reflexivity.
  - right. left. reflexivity.
  - reflexivity.
Defined.

(** ** Blank lines *)

Lemma has_blank_tail (c : ascii) (t : str) :
  has_blank (c :: t) = false -> has_blank t = false.
Proof.
  destruct t as [|c' t]; [reflexivity|]. cbn [has_blank].
  intros H. apply orb_false_elim in H as [_ H]. exact H.
Qed.

Lemma has_blank_snoc (s : str) (c : ascii) :
  has_blank (s ++ [c])
  = has_blank s
    || (match rev s with x :: _ => Ascii.eqb x LF | [] => false end
        && Ascii.eqb c LF).
Proof.
  induction s as [| x | x x' t _ IH] using pair_induction.
  - reflexivity.
  - simpl. rewrite orb_false_r. reflexivity.
  - change ((x :: x' :: t) ++ [c]) with (x :: (x' :: t) ++ [c]).
    change (has_blank (x :: (x' :: t) ++ [c]))
      with ((Ascii.eqb x LF && Ascii.eqb x' LF) || has_blank ((x' :: t) ++ [c])).
    rewrite IH.
    change (has_blank (x :: x' :: t))
      with ((Ascii.eqb x LF && Ascii.eqb x' LF) || has_blank (x' :: t)).
    rewrite <- orb_assoc. f_equal. f_equal. f_equal.
    change (rev (x :: x' :: t)) with (rev (x' :: t) ++ [x]).
    destruct (rev (x' :: t)) eqn:E; [|reflexivity].
    simpl in E. apply app_eq_nil in E as [_ E]. discriminate E.
Qed.

Lemma has_blank_push (c : ascii) (cur : str) :
  has_blank (rev cur) = false ->
  (match cur with x :: _ => Ascii.eqb x LF | [] => false end && Ascii.eqb c LF) = false ->
  has_blank (rev (c :: cur)) = false.
Proof.
  intros Hcur Hc. simpl. rewrite has_blank_snoc, rev_involutive, Hcur, Hc.
  reflexivity.
Qed.

(** The pieces between blank lines hold no blank line. *)
Lemma split_blank_no_blank (text : str) :
  forall cur,
    has_blank (rev cur) = false ->
    (match cur with x :: _ => Ascii.eqb x LF | [] => false end
     && match text with c :: _ => Ascii.eqb c LF | [] => false end) = false ->
    Forall (fun p => has_blank p = false) (split_blank cur text).
Proof.
  induction text as [| c | c c' t IHt IHc] using pair_induction;
    intros cur Hcur Hedge.
  - cbn [split_blank]. constructor; [exact Hcur | constructor].
  - cbn [split_blank]. constructor; [|constructor].
    apply has_blank_push; assumption.
  - cbn [split_blank]. destruct (Ascii.eqb c LF && Ascii.eqb c' LF) eqn:E.
    + constructor; [exact Hcur|]. apply IHt; reflexivity.
    + apply IHc; [apply has_blank_push; assumption | exact E].
Qed.

Lemma lstrip_no_blank (s : str) : has_blank s = false -> has_blank (lstrip s) = false.
Proof.
  induction s as [|c t IH]; intros H; [reflexivity|]. simpl.
  destruct (is_space c); [|exact H]. exact (IH (has_blank_tail c t H)).
Qed.

Lemma rstrip_rec_head (s : str) (x : ascii) (r : str) :
  rstrip_rec s = x :: r -> exists t, s = x :: t.
Proof.
  destruct s as [|c t]; [discriminate|]. simpl.
  destruct (rstrip_rec t).
  - destruct (is_space c); [discriminate|]. intros [= -> _]. eauto.
  - intros [= -> _]. eauto.
Qed.

Lemma rstrip_rec_no_blank (s : str) :
  has_blank s = false -> has_blank (rstrip_rec s) = false.
Proof.
  induction s as [|c t IH]; intros H; [reflexivity|]. simpl.
  destruct (rstrip_rec t) as [|x r] eqn:E.
  - destruct (is_space c); reflexivity.
  - destruct (rstrip_rec_head t x r E) as [t' ->].
    change (has_blank (c :: x :: t'))
      with ((Ascii.eqb c LF && Ascii.eqb x LF) || has_blank (x :: t')) in H.
    apply orb_false_elim in H as [H1 H2].
    change (has_blank (c :: x :: r))
      with ((Ascii.eqb c LF && Ascii.eqb x LF) || has_blank (x :: r)).
    rewrite H1, (IH H2). reflexivity.
Qed.

Lemma strip_no_blank (s : str) : has_blank s = false -> has_blank (strip s) = false.
Proof.
  intros H. unfold strip. rewrite rstrip_rec_eq.
  apply rstrip_rec_no_blank, lstrip_no_blank, H.
Qed.

(** X18: no paragraph handed to the service holds a blank line (two line
    feeds in a row). *)
Theorem paragraphs_no_blank_line (text : str) :
  Forall (fun p => has_blank p = false) (paragraphs text).
Proof.
  unfold paragraphs.
  pose proof (split_blank_no_blank text [] eq_refl eq_refl) as H.
  induction H as [|q qs Hq _ IH]; [constructor|].
  simpl. destruct (strip q) eqn:E; [exact IH|].
  simpl. constructor; [|exact IH]. rewrite E, <- E. exact (strip_no_blank q Hq).
Qed.

Lemma split_blank_step (cur : str) (c c' : ascii) (t : str) :
  split_blank cur (c :: c' :: t)
  = if Ascii.eqb c LF && Ascii.eqb c' LF
    then rev cur :: split_blank [] t
    else split_blank (c :: cur) (c' :: t).
Proof. reflexivity. Qed.

Lemma split_blank_whole (text : str) :
  has_blank text = false ->
  forall cur, split_blank cur text = [rev cur ++ text].
Proof.
  induction text as [| c | c c' t _ IHc] using pair_induction; intros H cur.
  - simpl. rewrite app_nil_r. reflexivity.
  - reflexivity.
  - change (has_blank (c :: c' :: t))
      with ((Ascii.eqb c LF && Ascii.eqb c' LF) || has_blank (c' :: t)) in H.
    apply orb_false_elim in H as [H1 H2].
    rewrite split_blank_step, H1, (IHc H2). simpl. rewrite <- app_assoc.
    reflexivity.
Qed.

(** X19: a text without a blank line is one paragraph, the trimmed text, or
    none when it is all whitespace: the service is called at most once. *)
Theorem single_paragraph (text : str) :
  has_blank text = false ->
  paragraphs text = match strip text with [] => [] | p => [p] end.
Proof.
  intros H. unfold paragraphs. rewrite (split_blank_whole text H []).
  cbn [rev app filter]. destruct (strip text) eqn:E; [reflexivity|].
  cbn [map]. rewrite E. reflexivity.
Qed.

Lemma single_paragraph_witness :
  paragraphs (" "%char :: acme_text ++ [LF]) = [acme_text].
Proof.
  apply (single_paragraph (" "%char :: acme_text ++ [LF])). reflexivity.
Defined.

(** ** Founders in the file *)

Lemma all_str_map (names : list str) : all_str (map VStr names) = Ok names.
Proof.
  induction names as [|n names IH]; [reflexivity|]. simpl. rewrite IH. reflexivity.
Qed.

Lemma info_row_names (name : PyVal) (date : str) (names : list str) :
  info_row (mkCompanyInfo name date (VList (map VStr names)))
  = Ok (Row name (VStr date) (intercalate (lit ", ") names)).
Proof.
  unfold info_row, join. cbn [founders iterate bind company_name founding_date].
  rewrite all_str_map. reflexivity.
Qed.

(** X20: how [_save_companies_to_csv] writes the founders: a list of strings
    becomes the names joined by comma and space; a string is taken apart
    into its characters, joined the same way; a number raises. *)
Theorem founders_in_row (name : PyVal) (date : str) :
  (forall names,
      info_row (mkCompanyInfo name date (VList (map VStr names)))
      = Ok (Row name (VStr date) (intercalate (lit ", ") names)))
  /\ (forall s,
        info_row (mkCompanyInfo name date (VStr s))
        = Ok (Row name (VStr date)
                  (intercalate (lit ", ") (map (fun c => [c]) s))))
  /\ (forall n,
        info_row (mkCompanyInfo name date (VInt n))
        = Raise (TypeError (lit "object is not iterable"))).
Proof.
  split; [exact (info_row_names name date)|]. split; [|reflexivity].
  intros s. unfold info_row, join. cbn [founders iterate bind company_name founding_date].
  rewrite <- (map_map (fun c => [c]) VStr), all_str_map. reflexivity.
Qed.

Example founders_in_row_example :
  info_row (mkCompanyInfo (VStr (lit "Acme")) (lit "1999-01-01") (VStr (lit "Jane")))
  = Ok (Row (VStr (lit "Acme")) (VStr (lit "1999-01-01")) (lit "J, a, n, e")).
Proof. reflexivity. Qed.

Lemma named_rows (recs : list CompanyInfo) :
  Forall (fun c => exists names, founders c = VList (map VStr names)) recs ->
  exists rows, rows_of info_row recs rows.
Proof.
  induction 1 as [|c recs [names Hc] _ [rows IH]].
  - exists []. constructor.
  - destruct c as [name date fs]. simpl in Hc. subst fs.
    eexists (_ :: rows). constructor; [apply info_row_names | exact IH].
Qed.

(** X21: the run returns its records whenever no file operation fails and
    the founders of every record are a list of strings. *)
Theorem run_returns_with_named_founders
  (svc : Service) (fs : FileSys) (text : str) :
  no_fault fs default_filename ->
  Forall (fun c => exists names, founders c = VList (map VStr names))
         (all_companies (run_state svc text)) ->
  process_text_direct svc fs text = Ok (all_companies (run_state svc text)).
Proof.
  intros Hfs Hnamed. destruct (named_rows _ Hnamed) as [rows Hrows].
  unfold process_text_direct, _save_companies_to_csv. cbv zeta.
  rewrite (with_csv_no_fault info_row fs default_filename _ rows Hfs Hrows).
  reflexivity.
Qed.

Lemma run_returns_with_named_founders_witness :
  process_text_direct svc_acme fs_ok acme_text
  = Ok (all_companies (run_state svc_acme acme_text)).
Proof.
  apply (run_returns_with_named_founders svc_acme fs_ok acme_text).
  - repeat split.
  - constructor; [|constructor]. exists [lit "Jane Doe"]. reflexivity.
Defined.

(** ** A date that is not a string *)

Lemma build_company_bad_date (kv : list (str * PyVal)) (raw : PyVal) :
  lookup (lit "founding_date") kv = Some raw ->
  truthy raw = true -> (forall s, raw <> VStr s) ->
  build_company (VDict kv)
  = Raise (TypeError (lit "expected string or bytes-like object")).
Proof.
  intros Hraw Ht Hns. unfold build_company, get. rewrite Hraw.
  destruct (lookup (lit "company_name") kv); cbn [bind];
    unfold _normalize_date; rewrite Ht; cbn [negb];
    destruct raw; try reflexivity; exfalso; exact (Hns s eq_refl).
Qed.

(** X22: an entry whose [founding_date] is neither a string nor falsy, such
    as the number 1999, raises [TypeError] in the normaliser: the paragraph
    keeps the records of the entries before it and loses that entry and all
    that follow. *)
Theorem non_string_date_stops_paragraph
  (answer : PyVal) (pre post : list PyVal) (recs : list CompanyInfo)
  (kv : list (str * PyVal)) (raw : PyVal) (all : list CompanyInfo) :
  dict_with (lit "companies") answer = Some (VList (pre ++ VDict kv :: post)) ->
  built pre recs ->
  lookup (lit "founding_date") kv = Some raw ->
  truthy raw = true -> (forall s, raw <> VStr s) ->
  handle_result answer all
  = (all ++ recs, Some (TypeError (lit "expected string or bytes-like object"))).
Proof.
  intros Hres Hpre Hraw Ht Hns. unfold handle_result. rewrite Hres.
  cbn [iterate]. rewrite (for_companies_app pre recs Hpre).
  cbn [for_companies]. rewrite (build_company_bad_date kv raw Hraw Ht Hns).
  reflexivity.
Qed.

Lemma non_string_date_stops_paragraph_witness :
  handle_result
    (VDict [(lit "companies",
             VList ([acme_dict]
                    ++ VDict [(lit "company_name", VStr (lit "Beta"));
                              (lit "founding_date", VInt 1999)]
                    :: [acme_dict]))])
    []
  = ([acme_record], Some (TypeError (lit "expected string or bytes-like object"))).
Proof.
  apply (non_string_date_stops_paragraph
           (VDict [(lit "companies",
                    VList ([acme_dict]
                           ++ VDict [(lit "company_name", VStr (lit "Beta"));
                                     (lit "founding_date", VInt 1999)]
                           :: [acme_dict]))])
           [acme_dict] [acme_dict] [acme_record]
           [(lit "company_name", VStr (lit "Beta"));
            (lit "founding_date", VInt 1999)]
           (VInt 1999) []).
  - reflexivity.
  - constructor; [reflexivity | constructor].
  - reflexivity.
  - reflexivity.
  - discriminate.
Defined.
